(** * PhotoEditor: the raster annotation engine

    A shallow embedding of [PhotoEditor.tsx] (the snapshot-based photo
    editor): the 2D canvas it paints on, the React state of the component,
    its event handlers, and the properties of the undo history, of the
    shape preview and of the shape geometry.

    Modelling choices.
    - A JavaScript [number] is an element of a type [num] with the
      operations of the class [JSNumber] (the operators and the [Math]
      functions the editor calls).  The state machine is verified for every
      such type, and so is the fit of the image to the window, whose
      comparison, scaling and truncation are those of the type.  The
      geometry of circles and arrows is verified for the instance of real
      numbers, the values that IEEE doubles approximate; the instance of
      doubles runs the examples that need no trigonometry.  The two
      instances do not give the same fit: 0.7 is not a double, so a photo
      of 640 by 504 pixels in a window of 1280 by 720 fits over the reals
      and is scaled, to 639 by 503, on doubles.  A canvas dimension is the
      integer part of the number assigned to it.
    - A bitmap is a function from pixel coordinates to pixels.  Stroking a
      path and drawing an image composite a source pixel over each
      destination pixel (the canvas default, source-over); how a path or an
      image is rasterised is a parameter, the class [Raster].
    - [ImageData] is a value: a snapshot never aliases the canvas.
      [getImageData] is total here and returns the empty image for an empty
      rectangle, where the browser raises [IndexSizeError].  The handlers
      read the whole canvas, so the two differ only on a canvas without
      pixels ([hasPixels] fails), which a load produces for a photo so thin
      that a fitted dimension truncates to 0; the properties of a loaded
      session are stated for a canvas that has pixels.
    - The component is mounted: [canvasRef.current] and its 2D context are
      present, so the null guards of the handlers are not taken.  Every
      handler runs to completion and React re-renders before the next event,
      so a handler reads the state the previous handler left.
    - The pointer handlers are attached when the component mounts and the
      photo loads later, so a gesture can be committed before the load; the
      load then adds its snapshot to a history that is not empty.  The
      properties of a loaded session carry the condition that the history
      was empty at the load; [earlySession] is a session where it was
      not. *)

From Stdlib Require Import ZArith Floats String List Bool Lia Reals Lra.
Import ListNotations.

Set Implicit Arguments.

(** ** Numbers *)

Class JSNumber (num : Type) : Type := {
  ofZ : Z -> num;
  add : num -> num -> num;
  sub : num -> num -> num;
  mul : num -> num -> num;
  div : num -> num -> num;
  gt : num -> num -> bool;
  Math_min : num -> num -> num;
  Math_sqrt : num -> num;
  Math_pow : num -> nat -> num;
  Math_cos : num -> num;
  Math_sin : num -> num;
  Math_atan2 : num -> num -> num;
  Math_PI : num;
  (** conversion of a number to the integer a canvas dimension holds *)
  toLength : num -> Z
}.

Declare Scope js_scope.
Delimit Scope js_scope with js.
Notation "a + b" := (add a b) : js_scope.
Notation "a - b" := (sub a b) : js_scope.
Notation "a * b" := (mul a b) : js_scope.
Notation "a / b" := (div a b) : js_scope.
Notation "a >? b" := (gt a b) : js_scope.
Notation "# z" := (ofZ z%Z) (at level 5, z at level 0, format "# z") : js_scope.

(** ** Canvas data *)

Inductive LineCap := Butt | RoundCap | SquareCap.
Inductive LineJoin := Miter | RoundJoin | Bevel.

Section Data.
Variables num Pixel : Type.

Record Point := { x : num; y : num }.

Inductive PathCmd :=
| MoveTo (px py : num)
| LineTo (px py : num)
| Arc (cx cy radius startAngle endAngle : num).

(** The stroke attributes of a 2D context. *)
Record Brush := {
  strokeStyle : string;
  lineWidth : num;
  lineCap : LineCap;
  lineJoin : LineJoin
}.

(** A decoded source image. *)
Record Image := {
  img_width : Z;
  img_height : Z;
  img_bitmap : Z -> Z -> Pixel
}.

Record ImageData := {
  data_width : Z;
  data_height : Z;
  data : Z -> Z -> Pixel
}.

(** The canvas element together with its 2D context. *)
Record Canvas := {
  width : Z;
  height : Z;
  bitmap : Z -> Z -> Pixel;
  path : list PathCmd;
  brush : Brush
}.
End Data.

Arguments MoveTo {num}.
Arguments LineTo {num}.
Arguments Arc {num}.

(** What the platform does with paths, images and encoders. *)
Class Raster (num Pixel Blob : Type) : Type := {
  transparent : Pixel;
  sourceOver : Pixel -> Pixel -> Pixel;
  (** the source pixel a stroked path contributes at a coordinate *)
  strokePixel : list (PathCmd num) -> Brush num -> Z -> Z -> Pixel;
  (** the source pixel [drawImage img dx dy dw dh] contributes *)
  imagePixel : Image Pixel -> num -> num -> num -> num -> Z -> Z -> Pixel;
  (** the encoder behind [toBlob] *)
  encode : string -> num -> Z -> Z -> (Z -> Z -> Pixel) -> option Blob
}.

Inductive Tool := PEN | CIRCLE | ARROW.

Section Editor.
Context {num Pixel Blob : Type} {NumOps : JSNumber num}
        {RasterOps : Raster num Pixel Blob}.

Local Open Scope Z_scope.

Local Abbreviation Point := (Point num).
Local Abbreviation PathCmd := (PathCmd num).
Local Abbreviation Brush := (Brush num).
Local Abbreviation Image := (Image Pixel).
Local Abbreviation ImageData := (ImageData Pixel).
Local Abbreviation Canvas := (Canvas num Pixel).

(** *** The 2D context *)

Definition inside (w h px py : Z) : bool :=
  (0 <=? px) && (px <? w) && (0 <=? py) && (py <? h).

Definition defaultBrush : Brush :=
  {| strokeStyle := "#000000"; lineWidth := (#1)%js;
     lineCap := Butt; lineJoin := Miter |}.

(** [canvas.width = w]: the bitmap is cleared and the context reset. *)
Definition set_width (w : num) (c : Canvas) : Canvas :=
  {| width := toLength w; height := height c;
     bitmap := fun _ _ => transparent; path := []; brush := defaultBrush |}.

Definition set_height (h : num) (c : Canvas) : Canvas :=
  {| width := width c; height := toLength h;
     bitmap := fun _ _ => transparent; path := []; brush := defaultBrush |}.

Definition with_bitmap (b : Z -> Z -> Pixel) (c : Canvas) : Canvas :=
  {| width := width c; height := height c; bitmap := b;
     path := path c; brush := brush c |}.

Definition with_path (p : list PathCmd) (c : Canvas) : Canvas :=
  {| width := width c; height := height c; bitmap := bitmap c;
     path := p; brush := brush c |}.

Definition with_brush (b : Brush) (c : Canvas) : Canvas :=
  {| width := width c; height := height c; bitmap := bitmap c;
     path := path c; brush := b |}.

Definition set_strokeStyle (s : string) (c : Canvas) : Canvas :=
  with_brush {| strokeStyle := s; lineWidth := lineWidth (brush c);
                lineCap := lineCap (brush c);
                lineJoin := lineJoin (brush c) |} c.

Definition set_lineWidth (w : num) (c : Canvas) : Canvas :=
  with_brush {| strokeStyle := strokeStyle (brush c); lineWidth := w;
                lineCap := lineCap (brush c);
                lineJoin := lineJoin (brush c) |} c.

Definition set_lineCap (k : LineCap) (c : Canvas) : Canvas :=
  with_brush {| strokeStyle := strokeStyle (brush c);
                lineWidth := lineWidth (brush c);
                lineCap := k; lineJoin := lineJoin (brush c) |} c.

Definition set_lineJoin (j : LineJoin) (c : Canvas) : Canvas :=
  with_brush {| strokeStyle := strokeStyle (brush c);
                lineWidth := lineWidth (brush c);
                lineCap := lineCap (brush c); lineJoin := j |} c.

Definition beginPath (c : Canvas) : Canvas := with_path [] c.

Definition moveTo (px py : num) (c : Canvas) : Canvas :=
  with_path (path c ++ [MoveTo px py]) c.

Definition lineTo (px py : num) (c : Canvas) : Canvas :=
  with_path (path c ++ [LineTo px py]) c.

Definition arc (cx cy radius startAngle endAngle : num) (c : Canvas)
  : Canvas :=
  with_path (path c ++ [Arc cx cy radius startAngle endAngle]) c.

(** One stroked path composited over a bitmap. *)
Definition paint (p : list PathCmd) (b : Brush) (under : Z -> Z -> Pixel)
  : Z -> Z -> Pixel :=
  fun px py => sourceOver (strokePixel p b px py) (under px py).

Definition stroke (c : Canvas) : Canvas :=
  with_bitmap (paint (path c) (brush c) (bitmap c)) c.

Definition drawImage (img : Image) (dx dy dw dh : num) (c : Canvas)
  : Canvas :=
  with_bitmap
    (fun px py => sourceOver (imagePixel img dx dy dw dh px py)
                             (bitmap c px py)) c.

(** Pixels outside the canvas read as transparent.  For [sw = 0] or
    [sh = 0] the browser raises [IndexSizeError]; here the result is the
    empty image. *)
Definition getImageData (sx sy sw sh : Z) (c : Canvas) : ImageData :=
  {| data_width := sw; data_height := sh;
     data := fun px py =>
       if inside (width c) (height c) (sx + px) (sy + py)
       then bitmap c (sx + px) (sy + py) else transparent |}.

(** The rectangle of the image replaces what the bitmap held there. *)
Definition putImageData (d : ImageData) (dx dy : Z) (c : Canvas) : Canvas :=
  with_bitmap
    (fun px py =>
       if inside (data_width d) (data_height d) (px - dx) (py - dy)
       then data d (px - dx) (py - dy) else bitmap c px py) c.

(** [canvas.toBlob]: a canvas without pixels has no encoding. *)
Definition toBlob (type : string) (quality : num) (c : Canvas)
  : option Blob :=
  if (width c =? 0) || (height c =? 0) then None
  else encode type quality (width c) (height c) (bitmap c).

(** *** Arrays *)

(** [l.slice(start)] *)
Definition slice {A : Type} (start : Z) (l : list A) : list A :=
  let len := Z.of_nat (length l) in
  let k := if start <? 0 then Z.max (len + start) 0 else Z.min start len in
  skipn (Z.to_nat k) l.

(** [l[l.length - 1]], [undefined] on the empty array *)
Definition last_item {A : Type} (l : list A) : option A :=
  nth_error l (length l - 1)%nat.

(** *** Component state *)

Record State := {
  canvas : Canvas;
  activeTool : Tool;
  color : string;
  history : list ImageData;
  isDrawing : bool;
  startPos : Point
}.

Definition with_canvas (c : Canvas) (s : State) : State :=
  {| canvas := c; activeTool := activeTool s; color := color s;
     history := history s; isDrawing := isDrawing s;
     startPos := startPos s |}.

Definition setActiveTool (t : Tool) (s : State) : State :=
  {| canvas := canvas s; activeTool := t; color := color s;
     history := history s; isDrawing := isDrawing s;
     startPos := startPos s |}.

Definition setColor (c : string) (s : State) : State :=
  {| canvas := canvas s; activeTool := activeTool s; color := c;
     history := history s; isDrawing := isDrawing s;
     startPos := startPos s |}.

Definition setHistory (f : list ImageData -> list ImageData) (s : State)
  : State :=
  {| canvas := canvas s; activeTool := activeTool s; color := color s;
     history := f (history s); isDrawing := isDrawing s;
     startPos := startPos s |}.

Definition setIsDrawing (b : bool) (s : State) : State :=
  {| canvas := canvas s; activeTool := activeTool s; color := color s;
     history := history s; isDrawing := b; startPos := startPos s |}.

Definition setStartPos (p : Point) (s : State) : State :=
  {| canvas := canvas s; activeTool := activeTool s; color := color s;
     history := history s; isDrawing := isDrawing s; startPos := p |}.

(** The canvas of a freshly mounted component and its [useState]
    defaults. *)
Definition mounted : State :=
  {| canvas := {| width := 300; height := 150;
                  bitmap := fun _ _ => transparent;
                  path := []; brush := defaultBrush |};
     activeTool := PEN; color := "#FF0000"; history := [];
     isDrawing := false;
     startPos := {| x := (#0)%js; y := (#0)%js |} |}.

(** *** Handlers *)

Definition push (snapshot : ImageData) (prev : list ImageData)
  : list ImageData :=
  slice (-9) prev ++ [snapshot].

Definition saveState (s : State) : State :=
  let c := canvas s in
  setHistory (push (getImageData 0 0 (width c) (height c) c)) s.

(** Fit logic of the image-load handler: the size the image is drawn
    at, which is also assigned to the canvas. *)
Definition fit (img : Image) (innerWidth innerHeight : Z) : num * num :=
  (let maxWidth := #innerWidth in
   let maxHeight := #innerHeight * (#7 / #10) in
   let width := #(img_width img) in
   let height := #(img_height img) in
   if (width >? maxWidth) || (height >? maxHeight) then
     let ratio := Math_min (maxWidth / width) (maxHeight / height) in
     (width * ratio, height * ratio)
   else (width, height))%js.

Definition onload (img : Image) (innerWidth innerHeight : Z) (s : State)
  : State :=
  let size := fit img innerWidth innerHeight in
  let w := fst size in
  let h := snd size in
  let c := set_height h (set_width w (canvas s)) in
  let c := drawImage img (#0)%js (#0)%js w h c in
  saveState (with_canvas c s).

Definition handleUndo (s : State) : State :=
  if (length (history s) <=? 1)%nat then s
  else
    let newHistory := removelast (history s) in
    let previousState := last_item newHistory in
    let s := setHistory (fun _ => newHistory) s in
    match previousState with
    | Some previousState =>
        with_canvas (putImageData previousState 0 0 (canvas s)) s
    | None => s
    end.

(** A mouse event, or a touch event with its first contact and the
    others. *)
Inductive PointerEvent :=
| MouseEvent (clientX clientY : num)
| TouchEvent (first : num * num) (others : list (num * num)).

(** The two fields of [getBoundingClientRect()] the editor reads. *)
Record DOMRect := { rect_left : num; rect_top : num }.

Definition getPos (e : PointerEvent) (rect : DOMRect) : Point :=
  let '(clientX, clientY) :=
    match e with
    | TouchEvent first _ => first
    | MouseEvent clientX clientY => (clientX, clientY)
    end in
  {| x := (clientX - rect_left rect)%js;
     y := (clientY - rect_top rect)%js |}.

Definition startDrawing (e : PointerEvent) (rect : DOMRect) (s : State)
  : State :=
  let s1 := setIsDrawing true s in
  let pos := getPos e rect in
  let s2 := setStartPos pos s1 in
  let c := canvas s in
  let c := beginPath c in
  let c := moveTo (x pos) (y pos) c in
  let c := set_strokeStyle (color s) c in
  let c := set_lineWidth (#4)%js c in
  let c := set_lineCap RoundCap c in
  let c := set_lineJoin RoundJoin c in
  with_canvas c s2.

Definition draw (e : PointerEvent) (rect : DOMRect) (s : State) : State :=
  if negb (isDrawing s) then s
  else
    let c := canvas s in
    let currentPos := getPos e rect in
    let startPos := startPos s in
    match activeTool s with
    | PEN =>
        let c := lineTo (x currentPos) (y currentPos) c in
        with_canvas (stroke c) s
    | tool =>
        let lastState := last_item (history s) in
        let c := match lastState with
                 | Some lastState => putImageData lastState 0 0 c
                 | None => c
                 end in
        let c := beginPath c in
        let c := set_strokeStyle (color s) c in
        let c := set_lineWidth (#4)%js c in
        match tool with
        | CIRCLE =>
            let radius :=
              (Math_sqrt (Math_pow (x currentPos - x startPos) 2
                          + Math_pow (y currentPos - y startPos) 2))%js in
            let c := arc (x startPos) (y startPos) radius
                         (#0)%js (#2 * Math_PI)%js c in
            with_canvas (stroke c) s
        | _ =>
            let c := moveTo (x startPos) (y startPos) c in
            let c := lineTo (x currentPos) (y currentPos) c in
            let c := stroke c in
            let angle :=
              (Math_atan2 (y currentPos - y startPos)
                          (x currentPos - x startPos))%js in
            let headLen := (#15)%js in
            let c := beginPath c in
            let c := moveTo (x currentPos) (y currentPos) c in
            let c :=
              lineTo
                (x currentPos - headLen * Math_cos (angle - Math_PI / #6))%js
                (y currentPos - headLen * Math_sin (angle - Math_PI / #6))%js
                c in
            let c := moveTo (x currentPos) (y currentPos) c in
            let c :=
              lineTo
                (x currentPos - headLen * Math_cos (angle + Math_PI / #6))%js
                (y currentPos - headLen * Math_sin (angle + Math_PI / #6))%js
                c in
            with_canvas (stroke c) s
        end
    end.

Definition stopDrawing (s : State) : State :=
  if isDrawing s then saveState (setIsDrawing false s) else s.

(** What the editor hands to its host. *)
Inductive HostCall :=
| onSave (editedBlob : Blob)
| onCancel.

Definition handleSave (s : State) : list HostCall :=
  match toBlob "image/jpeg" (#85 / #100)%js (canvas s) with
  | Some blob => [onSave blob]
  | None => []
  end.

(** *** Events *)

Inductive Event :=
| GestureStart (e : PointerEvent) (rect : DOMRect)
    (* onMouseDown, onTouchStart *)
| GestureMove (e : PointerEvent) (rect : DOMRect)
    (* onMouseMove, onTouchMove *)
| GestureEnd
    (* onMouseUp, onMouseLeave, onTouchEnd *)
| ClickUndo
| ClickTool (t : Tool)
| ClickColor (c : string)
| ClickSave.

Definition handle (s : State) (ev : Event) : State :=
  match ev with
  | GestureStart e rect => startDrawing e rect s
  | GestureMove e rect => draw e rect s
  | GestureEnd => stopDrawing s
  | ClickUndo => handleUndo s
  | ClickTool t => setActiveTool t s
  | ClickColor c => setColor c s
  | ClickSave => s
  end.

Definition run (evs : list Event) (s : State) : State :=
  fold_left handle evs s.

(** *** Notions the properties are stated with *)

(** The canvas shows exactly the pixels of a snapshot. *)
Definition pixel_exact (c : Canvas) (d : ImageData) : Prop :=
  width c = data_width d /\ height c = data_height d /\
  forall px py, inside (width c) (height c) px py = true ->
                bitmap c px py = data d px py.


(** A snapshot as large as the canvas. *)
Definition sized (c : Canvas) (d : ImageData) : Prop :=
  data_width d = width c /\ data_height d = height c.

(** The state of a session whose image has loaded on an empty history:
    every snapshot has the size of the canvas, there is at least one, and
    when no gesture is active the canvas shows the most recent one. *)
Record consistent (s : State) : Prop := {
  snapshots_sized : Forall (sized (canvas s)) (history s);
  has_snapshot : history s <> [];
  quiescent :
    isDrawing s = false ->
    exists top, last_item (history s) = Some top /\
                pixel_exact (canvas s) top
}.

(** The [n] most recent entries of a list that grows at its end. *)
Definition most_recent {A : Type} (n : nat) (l : list A) : list A :=
  skipn (length l - n) l.

Definition pushes (snapshots : list ImageData) (h : list ImageData)
  : list ImageData :=
  fold_left (fun h snapshot => push snapshot h) snapshots h.

Definition undos (k : nat) (s : State) : State := Nat.iter k handleUndo s.

(** The paths one preview frame strokes for a shape tool. *)
Definition circlePath (anchor p : Point) : list PathCmd :=
  [Arc (x anchor) (y anchor)
       (Math_sqrt (Math_pow (x p - x anchor) 2
                   + Math_pow (y p - y anchor) 2))%js
       (#0)%js (#2 * Math_PI)%js].

Definition arrowShaft (anchor p : Point) : list PathCmd :=
  [MoveTo (x anchor) (y anchor); LineTo (x p) (y p)].

Definition arrowHead (anchor p : Point) : list PathCmd :=
  (let angle := Math_atan2 (y p - y anchor) (x p - x anchor) in
   [MoveTo (x p) (y p);
    LineTo (x p - #15 * Math_cos (angle - Math_PI / #6))
           (y p - #15 * Math_sin (angle - Math_PI / #6));
    MoveTo (x p) (y p);
    LineTo (x p - #15 * Math_cos (angle + Math_PI / #6))
           (y p - #15 * Math_sin (angle + Math_PI / #6))])%js.

Definition shape (tool : Tool) (anchor p : Point) : list (list PathCmd) :=
  match tool with
  | PEN => []
  | CIRCLE => [circlePath anchor p]
  | ARROW => [arrowShaft anchor p; arrowHead anchor p]
  end.

(** The brush of a preview frame: the active colour, width 4, and the
    cap and join the context already has. *)
Definition previewBrush (color : string) (b : Brush) : Brush :=
  {| strokeStyle := color; lineWidth := (#4)%js;
     lineCap := lineCap b; lineJoin := lineJoin b |}.

(** The brush a gesture start leaves in the context. *)
Definition gestureBrush (color : string) : Brush :=
  {| strokeStyle := color; lineWidth := (#4)%js;
     lineCap := RoundCap; lineJoin := RoundJoin |}.

(** Paths stroked one after the other over a bitmap. *)
Definition composite (b : Brush) (paths : list (list PathCmd))
  (under : Z -> Z -> Pixel) : Z -> Z -> Pixel :=
  fold_left (fun bm p => paint p b bm) paths under.

(** One whole gesture: press, preview frames, release. *)
Definition gesture (start : PointerEvent * DOMRect)
  (moves : list (PointerEvent * DOMRect)) : list Event :=
  GestureStart (fst start) (snd start)
  :: map (fun m => GestureMove (fst m) (snd m)) moves ++ [GestureEnd].

End Editor.

Arguments State : clear implicits.
Arguments PointerEvent : clear implicits.
Arguments DOMRect : clear implicits.
Arguments Event : clear implicits.
Arguments HostCall : clear implicits.

(** ** Real numbers as the numbers of the editor *)

Definition Rtrunc (r : R) : Z :=
  if Rle_dec 0 r then Zfloor r else Zceil r.

(** The angle of the point [(x, y)], in the interval from [-PI] to
    [PI]; [0] at the origin. *)
Definition Ratan2 (y x : R) : R :=
  if Rlt_dec 0 x then atan (y / x)
  else if Rlt_dec x 0 then
    if Rle_dec 0 y then atan (y / x) + PI else atan (y / x) - PI
  else if Rlt_dec 0 y then PI / 2
  else if Rlt_dec y 0 then - (PI / 2)
  else 0.

#[export] Instance RealNumber : JSNumber R := {|
  ofZ := IZR;
  add := Rplus;
  sub := Rminus;
  mul := Rmult;
  div := Rdiv;
  gt := fun a b => if Rlt_dec b a then true else false;
  Math_min := Rmin;
  Math_sqrt := sqrt;
  Math_pow := pow;
  Math_cos := cos;
  Math_sin := sin;
  Math_atan2 := Ratan2;
  Math_PI := PI;
  toLength := Rtrunc
|}.

(** ** IEEE doubles as the numbers of the editor

    The arithmetic, the comparison and the square root are those of
    binary64; [Math.pow] with a natural exponent multiplies; the
    trigonometric functions, which no standard fixes bit for bit, are
    parameters. *)

Definition f64_ofZ (z : Z) : float :=
  match z with
  | Z0 => 0%float
  | Zpos p => SF2Prim (binary_round prec emax false p 0)
  | Zneg p => SF2Prim (binary_round prec emax true p 0)
  end.

(** The integer part of a double; [0] for infinities and NaN. *)
Definition f64_trunc (f : float) : Z :=
  match Prim2SF f with
  | S754_finite s m e =>
      let n := if (0 <=? e)%Z then (Z.pos m * 2 ^ e)%Z
               else (Z.pos m / 2 ^ (- e))%Z in
      if s then (- n)%Z else n
  | _ => 0%Z
  end.

Definition f64_min (a b : float) : float :=
  if is_nan a || is_nan b then nan
  else if (a <? b)%float then a
  else if (b <? a)%float then b
  else if get_sign a then a else b.

Fixpoint f64_pow (a : float) (n : nat) : float :=
  match n with
  | O => 1%float
  | S n => (a * f64_pow a n)%float
  end.

Definition Binary64 (f64_cos f64_sin : float -> float)
  (f64_atan2 : float -> float -> float) : JSNumber float := {|
  ofZ := f64_ofZ;
  add := PrimFloat.add;
  sub := PrimFloat.sub;
  mul := PrimFloat.mul;
  div := PrimFloat.div;
  gt := fun a b => (b <? a)%float;
  Math_min := f64_min;
  Math_sqrt := PrimFloat.sqrt;
  Math_pow := f64_pow;
  Math_cos := f64_cos;
  Math_sin := f64_sin;
  Math_atan2 := f64_atan2;
  Math_PI := 0x1.921fb54442d18p+1%float;
  toLength := f64_trunc
|}.

(** ** A raster for examples

    Each pixel counts the layers painted on it; every stroke and every
    image covers every pixel; the encoder returns the size it is given. *)

#[export] Instance LayerCount (num : Type) : Raster num nat (Z * Z) := {|
  transparent := 0%nat;
  sourceOver := fun src dst => (src + dst)%nat;
  strokePixel := fun _ _ _ _ => 1%nat;
  imagePixel := fun _ _ _ _ _ _ _ => 1%nat;
  encode := fun _ _ w h _ =>
    if (w * h <=? 1000000)%Z then Some (w, h) else None
|}.

(** An example session: a photo of 400 by 300 pixels loaded in a window
    of 1000 by 1000, on a canvas placed at the origin of the page. *)

Definition photo (w h : Z) : Image nat :=
  {| img_width := w; img_height := h; img_bitmap := fun _ _ => 1%nat |}.

Definition atOrigin : DOMRect R := {| rect_left := 0%R; rect_top := 0%R |}.

Definition mouse (px py : Z) : PointerEvent R * DOMRect R :=
  (MouseEvent (IZR px) (IZR py), atOrigin).

Definition session : State R nat := onload (photo 400 300) 1000 1000 mounted.

(** A photo smaller than the window, and one too large for the example
    encoder. *)
Definition smallSession : State R nat :=
  onload (photo 100 100) 1000 1000 mounted.

Definition largeSession : State R nat :=
  onload (photo 2000 1000) 2000 2000 mounted.

(** A gesture in progress: a press at the origin and one pen segment. *)
Definition midGesture : State R nat :=
  run [GestureStart (MouseEvent 0%R 0%R) atOrigin;
       GestureMove (MouseEvent 3%R 4%R) atOrigin] session.

(** The same on doubles, for a photo of any size. *)
Definition atOrigin64 : DOMRect float :=
  {| rect_left := 0%float; rect_top := 0%float |}.

Definition session64 (f64_cos f64_sin : float -> float)
  (f64_atan2 : float -> float -> float) (w h : Z) : State float nat :=
  onload (NumOps := Binary64 f64_cos f64_sin f64_atan2) (photo w h)
    1000 1000 (mounted (NumOps := Binary64 f64_cos f64_sin f64_atan2)).

(** A snapshot of one pixel, recognisable by its number. *)
Definition numbered (n : nat) : ImageData nat :=
  {| data_width := 1; data_height := 1; data := fun _ _ => n |}.



(** Doubles for the code that calls no trigonometric function, such as
    the fit of the image: the three functions are left undefined. *)
Definition Binary64Arith : JSNumber float :=
  Binary64 (fun _ => nan) (fun _ => nan) (fun _ _ => nan).

(** ** Further notions of the editor: pen strokes, runs of gestures *)

Section EditorMore.
Context {num Pixel Blob : Type} {NumOps : JSNumber num}
        {RasterOps : Raster num Pixel Blob}.

(** The open path of a pen stroke through the points [pts]. *)
Definition penPath (anchor : Point num) (pts : list (Point num))
  : list (PathCmd num) :=
  MoveTo (x anchor) (y anchor) :: map (fun p => LineTo (x p) (y p)) pts.

(** The bitmap after pen frames through the points [pts], the points
    [done] being already on the path: every frame strokes the whole path
    so far over what the canvas shows. *)
Fixpoint penFrames (b : Brush num) (anchor : Point num)
  (done pts : list (Point num)) (under : Z -> Z -> Pixel)
  : Z -> Z -> Pixel :=
  match pts with
  | [] => under
  | p :: rest =>
      penFrames b anchor (done ++ [p]) rest
        (paint (penPath anchor (done ++ [p])) b under)
  end.

(** The bitmap after shape frames that never restore a snapshot: every
    frame's shape lands on the previous one. *)
Definition trails (b : Brush num) (tool : Tool) (anchor : Point num)
  (pts : list (Point num)) (under : Z -> Z -> Pixel) : Z -> Z -> Pixel :=
  fold_left (fun bm p => composite b (shape tool anchor p) bm) pts under.

Definition positions (moves : list (PointerEvent num * DOMRect num))
  : list (Point num) :=
  map (fun m => getPos (fst m) (snd m)) moves.

Definition previews (moves : list (PointerEvent num * DOMRect num))
  : list (Event num) :=
  map (fun m => GestureMove (fst m) (snd m)) moves.

(** Several whole gestures, one after the other. *)
Definition gestures
  (gs : list ((PointerEvent num * DOMRect num)
              * list (PointerEvent num * DOMRect num)))
  : list (Event num) :=
  concat (map (fun g => gesture (fst g) (snd g)) gs).

(** The canvas has at least one pixel: [getImageData] on the whole
    canvas then raises no [IndexSizeError]. *)
Definition hasPixels (c : Canvas num Pixel) : Prop :=
  (0 < width c)%Z /\ (0 < height c)%Z.

(** A pointer move or a click on a colour of the palette. *)
Definition moveOrColor (ev : Event num) : bool :=
  match ev with
  | GestureMove _ _ | ClickColor _ => true
  | _ => false
  end.

End EditorMore.

(** The same pointer event and canvas rectangle after the page moved
    by [(dx, dy)] on the screen. *)
Definition scrolled (dx dy : R) (m : PointerEvent R * DOMRect R)
  : PointerEvent R * DOMRect R :=
  (match fst m with
   | MouseEvent cx cy => MouseEvent (cx + dx)%R (cy + dy)%R
   | TouchEvent first others =>
       TouchEvent ((fst first + dx)%R, (snd first + dy)%R)
         (map (fun t => ((fst t + dx)%R, (snd t + dy)%R)) others)
   end,
   {| rect_left := (rect_left (snd m) + dx)%R;
      rect_top := (rect_top (snd m) + dy)%R |}).

(** ** The host of the editor: [DetailModal.tsx]

    The modal keeps the inspection item, the list of its photos and the
    photo being edited; it opens the editor on a photo and receives the
    edited blob.  The two tables of the database it touches are maps from
    primary key to row.  [Date.now()] and [crypto.randomUUID()] are
    arguments of the handlers, one per call in the source.  A handler is
    modelled run alone: no other handler runs at its [await]s.  The calls
    to the image analysis and to the recorder are outside this model; the
    request for an analysis is an output of the upload handler. *)

Module DetailModal.

Inductive InspectionStatus := PENDING | PASS | FAIL | OTHER.
Inductive SourceType := contract | presale | other.
Inductive PhotoType := DEFECT | RECORD.

Record CheckItem := {
  id : string;
  groupId : string;
  title : string;
  status : InspectionStatus;
  description : string;
  images : list string;
  recordImages : list string;
  sourceImages : option (list string);
  sourceType : option SourceType;
  sourceText : option string;
  sortIndex : Z;
  updatedAt : Z
}.

(** One key of [CheckItem] with its new value: the two arguments of
    [updateField]. *)
Inductive Change :=
| set_id (v : string)
| set_groupId (v : string)
| set_title (v : string)
| set_status (v : InspectionStatus)
| set_description (v : string)
| set_images (v : list string)
| set_recordImages (v : list string)
| set_sourceImages (v : option (list string))
| set_sourceType (v : option SourceType)
| set_sourceText (v : option string)
| set_sortIndex (v : Z)
| set_updatedAt (v : Z).

(** [{ ...item, [field]: value }] *)
Definition assign (c : Change) (i : CheckItem) : CheckItem :=
  let 'Build_CheckItem a b t st d im ri si sty stx so up := i in
  match c with
  | set_id v => Build_CheckItem v b t st d im ri si sty stx so up
  | set_groupId v => Build_CheckItem a v t st d im ri si sty stx so up
  | set_title v => Build_CheckItem a b v st d im ri si sty stx so up
  | set_status v => Build_CheckItem a b t v d im ri si sty stx so up
  | set_description v => Build_CheckItem a b t st v im ri si sty stx so up
  | set_images v => Build_CheckItem a b t st d v ri si sty stx so up
  | set_recordImages v => Build_CheckItem a b t st d im v si sty stx so up
  | set_sourceImages v => Build_CheckItem a b t st d im ri v sty stx so up
  | set_sourceType v => Build_CheckItem a b t st d im ri si v stx so up
  | set_sourceText v => Build_CheckItem a b t st d im ri si sty v so up
  | set_sortIndex v => Build_CheckItem a b t st d im ri si sty stx v up
  | set_updatedAt v => Build_CheckItem a b t st d im ri si sty stx so v
  end.


(** A table of the database: rows by primary key. *)
Definition Table (A : Type) : Type := string -> option A.

(** [table.update(key, changes)]: nothing happens when the key is
    absent. *)
Definition table_update {A : Type} (key : string) (f : A -> A)
  (t : Table A) : Table A :=
  fun k => if String.eqb k key then option_map f (t k) else t k.


Definition table_delete {A : Type} (key : string) (t : Table A) : Table A :=
  fun k => if String.eqb k key then None else t k.

Section Modal.
Variables Blob Annotation : Type.

Record InspectionImage := {
  image_id : string;
  itemId : string;
  image_blob : Blob;
  annotationData : option Annotation;
  createdAt : Z
}.

Record Photo := {
  photo_id : string;
  photo_blob : Blob;
  photo_type : PhotoType;
  timestamp : Z;
  isAnnotated : bool
}.

Record Database := {
  db_items : Table CheckItem;
  db_images : Table InspectionImage
}.

(** The state of the component that the handlers below read or write. *)
Record Modal := {
  data : CheckItem;
  photos : list Photo;
  editingPhoto : option Photo;
  isProcessingAI : bool
}.

Definition setData (d : CheckItem) (m : Modal) : Modal :=
  {| data := d; photos := photos m; editingPhoto := editingPhoto m;
     isProcessingAI := isProcessingAI m |}.

Definition setPhotos (f : list Photo -> list Photo) (m : Modal) : Modal :=
  {| data := data m; photos := f (photos m);
     editingPhoto := editingPhoto m;
     isProcessingAI := isProcessingAI m |}.

Definition setEditingPhoto (p : option Photo) (m : Modal) : Modal :=
  {| data := data m; photos := photos m; editingPhoto := p;
     isProcessingAI := isProcessingAI m |}.


Definition with_items (t : Table CheckItem) (db : Database) : Database :=
  {| db_items := t; db_images := db_images db |}.

Definition with_images (t : Table InspectionImage) (db : Database)
  : Database :=
  {| db_items := db_items db; db_images := t |}.

(** The photo [loadPhotos] makes of a row. *)
Definition photoOf (item : CheckItem) (img : InspectionImage) : Photo :=
  {| photo_id := image_id img;
     photo_blob := image_blob img;
     photo_type := if existsb (String.eqb (image_id img)) (images item)
                   then DEFECT else RECORD;
     timestamp := createdAt img;
     isAnnotated := match annotationData img with
                    | Some _ => true
                    | None => false
                    end |}.

(** [loadPhotos], given the rows the query returned. *)
Definition loadPhotos (item : CheckItem) (dbImages : list InspectionImage)
  (m : Modal) : Modal :=
  setPhotos (fun _ => map (photoOf item) dbImages) m.

Definition updateField (c : Change) (now1 now2 : Z)
  (w : Modal * Database) : Modal * Database :=
  let '(m, db) := w in
  let updated := assign (set_updatedAt now1) (assign c (data m)) in
  let m' := setData updated m in
  if negb (String.eqb (id (data m)) "") then
    (m', with_items
           (table_update (id (data m))
              (fun i => assign (set_updatedAt now2) (assign c i))
              (db_items db)) db)
  else (m', db).

Definition handleStatusChange (st : InspectionStatus) (now1 now2 : Z)
  (w : Modal * Database) : Modal * Database :=
  updateField (set_status st) now1 now2 w.


Definition handleDeletePhoto (photoId : string) (now1 now2 : Z)
  (w : Modal * Database) : Modal * Database :=
  let '(m, db) := w in
  let db := with_images (table_delete photoId (db_images db)) db in
  let m1 :=
    setPhotos (filter (fun p => negb (String.eqb (photo_id p) photoId))) m in
  let newImages :=
    filter (fun i => negb (String.eqb i photoId)) (images (data m)) in
  let newRecordImages :=
    filter (fun i => negb (String.eqb i photoId)) (recordImages (data m)) in
  let updated :=
    assign (set_updatedAt now1)
      (assign (set_recordImages newRecordImages)
         (assign (set_images newImages) (data m))) in
  let m2 := setData updated m1 in
  (m2, with_items
         (table_update (id (data m))
            (fun i => assign (set_updatedAt now2)
                        (assign (set_recordImages newRecordImages)
                           (assign (set_images newImages) i)))
            (db_items db)) db).

(** The updater reads the clock at every photo it rewrites; the ids
    of the photos being primary keys, that is once. *)
Definition saveEditedPhoto (blob : Blob) (now : Z) (w : Modal * Database)
  : Modal * Database :=
  let '(m, db) := w in
  match editingPhoto m with
  | None => w
  | Some editing =>
      let db :=
        with_images
          (table_update (photo_id editing)
             (fun r => {| image_id := image_id r; itemId := itemId r;
                          image_blob := blob;
                          annotationData := annotationData r;
                          createdAt := createdAt r |})
             (db_images db)) db in
      let m1 :=
        setPhotos
          (map (fun p =>
                  if String.eqb (photo_id p) (photo_id editing)
                  then {| photo_id := photo_id p; photo_blob := blob;
                          photo_type := photo_type p; timestamp := now;
                          isAnnotated := true |}
                  else p)) m in
      (setEditingPhoto None m1, db)
  end.

(** What a call of the editor does to the modal: [onSave] is
    [saveEditedPhoto], [onCancel] closes the editor. *)
Definition host (now : Z) (w : Modal * Database) (call : HostCall Blob)
  : Modal * Database :=
  match call with
  | onSave blob => saveEditedPhoto blob now w
  | onCancel => (setEditingPhoto None (fst w), snd w)
  end.

Definition deliver (calls : list (HostCall Blob)) (now : Z)
  (w : Modal * Database) : Modal * Database :=
  fold_left (host now) calls w.

End Modal.

End DetailModal.

(** An example modal: a failed item with one defect photo, open in the
    editor; blobs are the sizes the example encoder returns. *)

Definition exampleItem : DetailModal.CheckItem :=
  {| DetailModal.id := "item-1"; DetailModal.groupId := "group-1";
     DetailModal.title := "Door"; DetailModal.status := DetailModal.FAIL;
     DetailModal.description := ""; DetailModal.images := ["p1"%string];
     DetailModal.recordImages := []; DetailModal.sourceImages := None;
     DetailModal.sourceType := None; DetailModal.sourceText := None;
     DetailModal.sortIndex := 0; DetailModal.updatedAt := 0 |}.

Definition exampleRow : DetailModal.InspectionImage (Z * Z) unit :=
  {| DetailModal.image_id := "p1"; DetailModal.itemId := "item-1";
     DetailModal.image_blob := (640, 480)%Z;
     DetailModal.annotationData := None; DetailModal.createdAt := 5 |}.

Definition exampleDatabase : DetailModal.Database (Z * Z) unit :=
  {| DetailModal.db_items :=
       fun k => if String.eqb k "item-1" then Some exampleItem else None;
     DetailModal.db_images :=
       fun k => if String.eqb k "p1" then Some exampleRow else None |}.

Definition exampleModal : DetailModal.Modal (Z * Z) :=
  {| DetailModal.data := exampleItem;
     DetailModal.photos := [DetailModal.photoOf exampleItem exampleRow];
     DetailModal.editingPhoto :=
       Some (DetailModal.photoOf exampleItem exampleRow);
     DetailModal.isProcessingAI := false |}.

(** ** Properties that hold for every number type and every raster *)

Section Properties.
Context {num Pixel Blob : Type} {NumOps : JSNumber num}
        {RasterOps : Raster num Pixel Blob}.

Local Abbreviation State := (State num Pixel).
Local Abbreviation PointerEvent := (PointerEvent num).
Local Abbreviation DOMRect := (DOMRect num).
Local Abbreviation Event := (Event num).
Local Abbreviation ImageData := (ImageData Pixel).
Local Abbreviation Canvas := (Canvas num Pixel).

(** *** Arrays *)

Lemma slice_last9 (A : Type) (l : list A) :
  slice (-9) l = skipn (length l - 9) l.
Proof.
  unfold slice. simpl. f_equal. lia.
Qed.

Lemma last_item_app (A : Type) (l : list A) (a : A) :
  last_item (l ++ [a]) = Some a.
Proof.
  unfold last_item. rewrite length_app. simpl.
  replace (length l + 1 - 1)%nat with (length l) by lia.
  rewrite nth_error_app2 by lia.
  now rewrite Nat.sub_diag.
Qed.

Lemma last_item_nonempty (A : Type) (l : list A) :
  l <> [] -> exists a, last_item l = Some a.
Proof.
  intros Hl. destruct (exists_last Hl) as [l' [a ->]].
  exists a. apply last_item_app.
Qed.

Lemma last_item_In (A : Type) (l : list A) (a : A) :
  last_item l = Some a -> In a l.
Proof.
  unfold last_item. apply nth_error_In.
Qed.

Lemma push_most_recent (h : list ImageData) (d : ImageData) :
  push d h = most_recent 10 (h ++ [d]).
Proof.
  unfold push, most_recent. rewrite slice_last9, length_app. simpl.
  rewrite skipn_app.
  replace (length h + 1 - 10)%nat with (length h - 9)%nat by lia.
  replace (length h - 9 - length h)%nat with 0%nat by lia.
  reflexivity.
Qed.

Lemma most_recent_push (l : list ImageData) (d : ImageData) :
  push d (most_recent 10 l) = most_recent 10 (l ++ [d]).
Proof.
  rewrite push_most_recent. unfold most_recent.
  rewrite !length_app, length_skipn. simpl.
  rewrite !skipn_app, skipn_skipn, length_skipn.
  replace (length l + 1 - 10 - length l)%nat with 0%nat by lia.
  replace (length l - (length l - 10) + 1 - 10
           - (length l - (length l - 10)))%nat with 0%nat by lia.
  simpl. f_equal. f_equal. lia.
Qed.

Lemma pushes_window (snapshots h : list ImageData) :
  pushes snapshots (most_recent 10 h) = most_recent 10 (h ++ snapshots).
Proof.
  revert h. induction snapshots as [|a l IH]; intros h.
  - now rewrite app_nil_r.
  - change (pushes (a :: l) (most_recent 10 h))
      with (pushes l (push a (most_recent 10 h))).
    rewrite most_recent_push, IH. now rewrite <- app_assoc.
Qed.

Lemma pushes_most_recent (snapshots h : list ImageData) :
  snapshots <> [] ->
  pushes snapshots h = most_recent 10 (h ++ snapshots).
Proof.
  destruct snapshots as [|a l]; [congruence | intros _].
  change (pushes (a :: l) h) with (pushes l (push a h)).
  rewrite push_most_recent, pushes_window. now rewrite <- app_assoc.
Qed.

Lemma most_recent_app_long (A : Type) (n : nat) (h l : list A) :
  (n <= length l)%nat -> most_recent n (h ++ l) = most_recent n l.
Proof.
  intros Hn. unfold most_recent. rewrite length_app, skipn_app.
  replace (skipn (length h + length l - n) h) with (@nil A).
  - simpl. f_equal. lia.
  - symmetry. apply skipn_all2. lia.
Qed.

Lemma length_most_recent (A : Type) (n : nat) (l : list A) :
  length (most_recent n l) = Nat.min n (length l).
Proof.
  unfold most_recent. rewrite length_skipn. lia.
Qed.

(** *** Undo *)

Lemma handleUndo_floor (s : State) :
  (length (history s) <= 1)%nat -> handleUndo s = s.
Proof.
  intros Hl. unfold handleUndo.
  destruct (Nat.leb_spec (length (history s)) 1); [reflexivity | lia].
Qed.

Lemma handleUndo_history (s : State) :
  (2 <= length (history s))%nat ->
  history (handleUndo s) = removelast (history s).
Proof.
  intros Hl. unfold handleUndo.
  destruct (Nat.leb_spec (length (history s)) 1); [lia |].
  destruct (last_item (removelast (history s))); reflexivity.
Qed.

Lemma removelast_length (A : Type) (l : list A) :
  length (removelast l) = (length l - 1)%nat.
Proof.
  destruct l as [|a l] using rev_ind; [reflexivity |].
  rewrite removelast_last, length_app. simpl. lia.
Qed.

Lemma handleUndo_length (s : State) :
  (1 <= length (history s))%nat ->
  (1 <= length (history (handleUndo s)))%nat.
Proof.
  intros Hl.
  destruct (Nat.le_gt_cases (length (history s)) 1) as [H1|H1].
  - now rewrite handleUndo_floor.
  - rewrite handleUndo_history, removelast_length by lia. lia.
Qed.

Lemma removelast_firstn_len (A : Type) (l : list A) :
  removelast l = firstn (length l - 1) l.
Proof.
  destruct l as [|a l] using rev_ind; [reflexivity |].
  rewrite removelast_last, length_app. simpl.
  replace (length l + 1 - 1)%nat with (length l) by lia.
  rewrite firstn_app, firstn_all, Nat.sub_diag. simpl.
  now rewrite app_nil_r.
Qed.

Lemma undos_prefix (k : nat) (s : State) :
  exists j, history (undos k s) = firstn j (history s).
Proof.
  induction k as [|k [j IH]].
  - exists (length (history s)). simpl. now rewrite firstn_all.
  - unfold undos in *. simpl.
    destruct (Nat.le_gt_cases (length (history (Nat.iter k handleUndo s))) 1)
      as [H1|H1].
    + rewrite handleUndo_floor by exact H1. now exists j.
    + rewrite handleUndo_history by lia.
      rewrite removelast_firstn_len, IH, firstn_firstn. eauto.
Qed.

(** *** Snapshots and the canvas *)

Lemma getImageData_exact (c : Canvas) :
  pixel_exact c (getImageData 0 0 (width c) (height c) c).
Proof.
  repeat split. intros px py Hin. simpl. now rewrite Hin.
Qed.

Lemma putImageData_exact (c : Canvas) (d : ImageData) :
  sized c d -> pixel_exact (putImageData d 0 0 c) d.
Proof.
  intros [Hw Hh]. repeat split; simpl; try congruence.
  intros px py Hin. rewrite !Z.sub_0_r, Hw, Hh. now rewrite Hin.
Qed.

Lemma sized_dims (c c' : Canvas) (h : list ImageData) :
  width c' = width c -> height c' = height c ->
  Forall (sized c) h -> Forall (sized c') h.
Proof.
  intros Hw Hh. apply Forall_impl. intros d [H1 H2].
  split; congruence.
Qed.

Lemma draw_dims (e : PointerEvent) (rect : DOMRect) (s : State) :
  width (canvas (draw e rect s)) = width (canvas s) /\
  height (canvas (draw e rect s)) = height (canvas s).
Proof.
  unfold draw. destruct (isDrawing s); simpl; [| now split].
  destruct (activeTool s); simpl; try now split.
  all: destruct (last_item (history s)); simpl; now split.
Qed.

Lemma draw_state (e : PointerEvent) (rect : DOMRect) (s : State) :
  history (draw e rect s) = history s /\
  isDrawing (draw e rect s) = isDrawing s /\
  startPos (draw e rect s) = startPos s /\
  activeTool (draw e rect s) = activeTool s /\
  color (draw e rect s) = color s.
Proof.
  unfold draw. destruct (isDrawing s) eqn:E; simpl; [| now rewrite E].
  destruct (activeTool s) eqn:T; simpl; now rewrite ?T.
Qed.

Lemma handleUndo_dims (s : State) :
  width (canvas (handleUndo s)) = width (canvas s) /\
  height (canvas (handleUndo s)) = height (canvas s).
Proof.
  unfold handleUndo. destruct (length (history s) <=? 1)%nat; [now split |].
  destruct (last_item (removelast (history s))); simpl; now split.
Qed.

Lemma Forall_prefix (A : Type) (P : A -> Prop) (n : nat) (l : list A) :
  Forall P l -> Forall P (firstn n l).
Proof.
  intros Hl. revert n. induction Hl as [|a l Ha Hl IH]; intros [|n]; simpl;
    constructor; auto.
Qed.

Lemma Forall_suffix (A : Type) (P : A -> Prop) (n : nat) (l : list A) :
  Forall P l -> Forall P (skipn n l).
Proof.
  intros Hl. revert n. induction Hl as [|a l Ha Hl IH]; intros [|n]; simpl;
    auto.
Qed.

Lemma Forall_removelast (A : Type) (P : A -> Prop) (l : list A) :
  Forall P l -> Forall P (removelast l).
Proof.
  rewrite removelast_firstn_len. apply Forall_prefix.
Qed.

Lemma Forall_push (P : ImageData -> Prop) (d : ImageData)
  (h : list ImageData) :
  Forall P h -> P d -> Forall P (push d h).
Proof.
  intros Hh Hd. unfold push. rewrite slice_last9.
  apply Forall_app. split; [now apply Forall_suffix | now constructor].
Qed.

Lemma push_nonempty (d : ImageData) (h : list ImageData) : push d h <> [].
Proof.
  unfold push. now destruct (slice (-9) h).
Qed.

Lemma saveState_consistent (s : State) :
  Forall (sized (canvas s)) (history s) -> consistent (saveState s).
Proof.
  intros Hs. split; simpl.
  - apply Forall_push; [exact Hs | now split].
  - apply push_nonempty.
  - intros _. eexists. split.
    + unfold push. apply last_item_app.
    + apply getImageData_exact.
Qed.

Lemma handleUndo_consistent (s : State) :
  consistent s -> consistent (handleUndo s).
Proof.
  intros C.
  destruct (Nat.le_gt_cases (length (history s)) 1) as [H1|H1].
  { now rewrite handleUndo_floor. }
  assert (Hne : removelast (history s) <> []).
  { intros E. apply (f_equal (@length _)) in E.
    rewrite removelast_length in E. simpl in E. lia. }
  destruct (last_item_nonempty Hne) as [prev Hprev].
  assert (Hsz : sized (canvas s) prev).
  { pose proof (Forall_removelast (snapshots_sized C)) as HF.
    rewrite Forall_forall in HF. apply HF.
    now apply last_item_In. }
  unfold handleUndo.
  destruct (Nat.leb_spec (length (history s)) 1); [lia |].
  rewrite Hprev. split; simpl.
  - apply Forall_removelast, (snapshots_sized C).
  - exact Hne.
  - intros _. exists prev. split; [exact Hprev |].
    now apply putImageData_exact.
Qed.

Lemma handle_consistent (s : State) (ev : Event) :
  consistent s -> consistent (handle s ev).
Proof.
  intros C. destruct ev as [e rect | e rect | | | t | c |]; simpl.
  - split; simpl; [apply (snapshots_sized C) | apply (has_snapshot C) |
                   discriminate].
  - destruct (draw_state e rect s) as (Hh & Hd & _).
    destruct (draw_dims e rect s) as [Hw Hht].
    split.
    + rewrite Hh. apply (sized_dims _ Hw Hht), (snapshots_sized C).
    + rewrite Hh. apply (has_snapshot C).
    + rewrite Hd. intros Hq. unfold draw. rewrite Hq. simpl.
      now apply (quiescent C).
  - unfold stopDrawing. destruct (isDrawing s); [| exact C].
    apply saveState_consistent. simpl. apply (snapshots_sized C).
  - now apply handleUndo_consistent.
  - split; simpl; apply C.
  - split; simpl; apply C.
  - exact C.
Qed.

Lemma run_consistent (evs : list Event) (s : State) :
  consistent s -> consistent (run evs s).
Proof.
  revert s. induction evs as [|ev evs IH]; intros s C; [exact C |].
  apply IH. now apply handle_consistent.
Qed.

Lemma onload_consistent (img : Image Pixel) (innerWidth innerHeight : Z)
  (s0 : State) :
  history s0 = [] -> consistent (onload img innerWidth innerHeight s0).
Proof.
  intros H0. unfold onload. apply saveState_consistent. simpl.
  rewrite H0. constructor.
Qed.

Lemma run_app (evs1 evs2 : list Event) (s : State) :
  run (evs1 ++ evs2) s = run evs2 (run evs1 s).
Proof.
  apply fold_left_app.
Qed.

(** *** Preview frames *)

Lemma draw_caps (e : PointerEvent) (rect : DOMRect) (s : State) :
  lineCap (brush (canvas (draw e rect s))) = lineCap (brush (canvas s)) /\
  lineJoin (brush (canvas (draw e rect s))) = lineJoin (brush (canvas s)).
Proof.
  unfold draw. destruct (isDrawing s); simpl; [| now split].
  destruct (activeTool s); simpl; try now split.
  all: destruct (last_item (history s)); simpl; now split.
Qed.


Lemma previews_state (moves : list (PointerEvent * DOMRect)) (s : State) :
  let s' := run (map (fun m => GestureMove (fst m) (snd m)) moves) s in
  isDrawing s' = isDrawing s /\ history s' = history s /\
  startPos s' = startPos s /\ activeTool s' = activeTool s /\
  color s' = color s /\
  width (canvas s') = width (canvas s) /\
  height (canvas s') = height (canvas s) /\
  lineCap (brush (canvas s')) = lineCap (brush (canvas s)) /\
  lineJoin (brush (canvas s')) = lineJoin (brush (canvas s)).
Proof.
  revert s. induction moves as [|[e rect] moves IH]; intros s; simpl.
  - repeat split.
  - specialize (IH (draw e rect s)). simpl in IH.
    destruct IH as (I1 & I2 & I3 & I4 & I5 & I6 & I7 & I8 & I9).
    destruct (draw_state e rect s) as (D1 & D2 & D3 & D4 & D5).
    destruct (draw_dims e rect s) as (D6 & D7).
    destruct (draw_caps e rect s) as (D8 & D9).
    repeat split; congruence.
Qed.

(** *** The claims *)


(** C3 (undo contract).  With at least two snapshots, undo removes the
    most recent one and repaints the canvas from the new most recent one;
    with at most one snapshot, undo returns the state it was given, so
    repeated undo changes nothing there and never leaves fewer than one
    snapshot. *)
Theorem undo_contract (s : State) :
  ((2 <= length (history s))%nat ->
   history (handleUndo s) = removelast (history s) /\
   exists previous,
     last_item (history (handleUndo s)) = Some previous /\
     canvas (handleUndo s) = putImageData previous 0 0 (canvas s) /\
     (sized (canvas s) previous ->
      pixel_exact (canvas (handleUndo s)) previous)) /\
  ((length (history s) <= 1)%nat ->
   handleUndo s = s /\ forall k, undos k s = s) /\
  ((1 <= length (history s))%nat ->
   forall k, (1 <= length (history (undos k s)))%nat).
Proof.
  split; [| split].
  - intros H2. split; [now apply handleUndo_history |].
    assert (Hne : removelast (history s) <> []).
    { intros E. apply (f_equal (@length _)) in E.
      rewrite removelast_length in E. simpl in E. lia. }
    destruct (last_item_nonempty Hne) as [prev Hprev].
    exists prev. unfold handleUndo.
    destruct (Nat.leb_spec (length (history s)) 1); [lia |].
    rewrite Hprev. simpl.
    split; [exact Hprev | split; [reflexivity | apply putImageData_exact]].
  - intros H1. split; [now apply handleUndo_floor |].
    induction k as [|k IH]; [reflexivity |].
    unfold undos in *. simpl. rewrite IH. now apply handleUndo_floor.
  - intros H1. induction k as [|k IH]; [exact H1 |].
    unfold undos in *. simpl. now apply handleUndo_length.
Qed.

(** C4 (history cap).  [push] appends; below the cap of 10 nothing is
    lost, at the cap the oldest entry goes.  After more than 10 pushes the
    history is exactly the 10 most recent snapshots in the order they were
    pushed, and whatever undo brings to the top of the history afterwards
    is one of those 10. *)
Theorem history_cap (snapshots : list ImageData) (s : State) :
  (10 < length snapshots)%nat ->
  let s' := setHistory (pushes snapshots) s in
  (forall (d : ImageData) h, (length h < 10)%nat -> push d h = h ++ [d]) /\
  (forall (d : ImageData) h, length h = 10%nat -> push d h = tl h ++ [d]) /\
  history s' = most_recent 10 snapshots /\
  length (history s') = 10%nat /\
  forall k d, last_item (history (undos k s')) = Some d ->
              In d (most_recent 10 snapshots).
Proof.
  intros Hlen s'.
  assert (Hs' : history s' = most_recent 10 snapshots).
  { simpl. rewrite pushes_most_recent by (intros ->; simpl in Hlen; lia).
    apply most_recent_app_long. lia. }
  repeat split.
  - intros d h Hh. unfold push. rewrite slice_last9.
    now replace (length h - 9)%nat with 0%nat by lia.
  - intros d h Hh. unfold push. rewrite slice_last9, Hh.
    now destruct h.
  - exact Hs'.
  - rewrite Hs', length_most_recent. lia.
  - intros k d Hd. apply last_item_In in Hd.
    destruct (undos_prefix k s') as [j Hj].
    rewrite Hj, Hs' in Hd. revert Hd. generalize (most_recent 10 snapshots).
    clear. intros l. revert j. induction l as [|a l IH]; intros [|j]; simpl;
      intuition eauto.
Qed.


(** C5 as the code has it (nested gesture start).  A gesture start
    while a gesture is active leaves the editor gesturing, and is not
    ignored: the anchor becomes the new position and the open path is
    restarted there, with the brush of a gesture start; pixels, history,
    tool and colour stay as they were. *)
Theorem nested_start_restarts_gesture (e : PointerEvent) (rect : DOMRect)
  (s : State) :
  isDrawing s = true ->
  let s' := startDrawing e rect s in
  let pos := getPos e rect in
  isDrawing s' = true /\
  startPos s' = pos /\
  path (canvas s') = [MoveTo (x pos) (y pos)] /\
  brush (canvas s') = gestureBrush (color s) /\
  bitmap (canvas s') = bitmap (canvas s) /\
  history s' = history s /\
  activeTool s' = activeTool s /\
  color s' = color s.
Proof.
  intros _. simpl. repeat split.
Qed.

(** C6 as the code has it (export without a payload).  When [toBlob]
    yields no payload, [handleSave] calls nothing: no payload is handed to
    [onSave], no error is signalled, and neither [onSave] nor [onCancel]
    closes the session.  With a payload, [onSave] receives exactly it. *)
Theorem export_without_payload_is_silent (s : State) :
  (toBlob "image/jpeg" (#85 / #100)%js (canvas s) = None ->
   handleSave s = [] /\ handle s ClickSave = s) /\
  (forall blob, toBlob "image/jpeg" (#85 / #100)%js (canvas s) = Some blob ->
                handleSave s = [onSave blob]).
Proof.
  unfold handleSave. split.
  - intros ->. now split.
  - intros blob ->. reflexivity.
Qed.


End Properties.

(** ** Geometry over the real numbers *)

Section RealGeometry.
Context {Pixel Blob : Type} {RasterOps : Raster R Pixel Blob}.

Local Abbreviation State := (State R Pixel).
Local Abbreviation PointerEvent := (PointerEvent R).
Local Abbreviation DOMRect := (DOMRect R).
Local Open Scope R_scope.

Lemma Rtrunc_IZR (z : Z) : Rtrunc (IZR z) = z.
Proof.
  unfold Rtrunc. destruct (Rle_dec 0 (IZR z)); [apply ZfloorZ |].
  apply Zceil_eq. lra.
Qed.

Lemma cos_sub_PI (a : R) : cos (a - PI) = - cos a.
Proof.
  rewrite cos_minus, cos_PI, sin_PI. lra.
Qed.

Lemma sin_sub_PI (a : R) : sin (a - PI) = - sin a.
Proof.
  rewrite sin_minus, cos_PI, sin_PI. lra.
Qed.

Lemma hypot_slope (dx dy : R) :
  dx <> 0 ->
  sqrt (dx ^ 2 + dy ^ 2) = Rabs dx * sqrt (1 + (dy / dx)²).
Proof.
  intros Hx.
  replace (dx ^ 2 + dy ^ 2) with (dx² * (1 + (dy / dx)²))
    by (unfold Rsqr; field; exact Hx).
  rewrite sqrt_mult_alt by apply Rle_0_sqr.
  now rewrite sqrt_Rsqr_abs.
Qed.

Lemma slope_norm_pos (t : R) : 0 < sqrt (1 + t²).
Proof.
  apply sqrt_lt_R0. pose proof (Rle_0_sqr t). lra.
Qed.

(** [Ratan2 dy dx] is the direction of the vector [(dx, dy)]. *)
Lemma Ratan2_polar (dx dy : R) :
  dx <> 0 \/ dy <> 0 ->
  dx = sqrt (dx ^ 2 + dy ^ 2) * cos (Ratan2 dy dx) /\
  dy = sqrt (dx ^ 2 + dy ^ 2) * sin (Ratan2 dy dx).
Proof.
  intros Hne. unfold Ratan2.
  destruct (Rlt_dec 0 dx) as [Hpos | Hnpos].
  { rewrite hypot_slope, cos_atan, sin_atan by lra.
    pose proof (slope_norm_pos (dy / dx)) as Hs.
    rewrite Rabs_pos_eq by lra. split; field; lra. }
  destruct (Rlt_dec dx 0) as [Hneg | Hnneg].
  { pose proof (slope_norm_pos (dy / dx)) as Hs.
    destruct (Rle_dec 0 dy).
    - rewrite hypot_slope, neg_cos, neg_sin, cos_atan, sin_atan by lra.
      rewrite Rabs_left by lra. split; field; lra.
    - rewrite hypot_slope, cos_sub_PI, sin_sub_PI, cos_atan, sin_atan by lra.
      rewrite Rabs_left by lra. split; field; lra. }
  assert (Hx : dx = 0) by lra. subst dx.
  replace (0 ^ 2 + dy ^ 2) with (dy²) by (unfold Rsqr; ring).
  rewrite sqrt_Rsqr_abs.
  destruct (Rlt_dec 0 dy) as [Hy | Hny].
  { rewrite cos_PI2, sin_PI2, Rabs_pos_eq by lra. lra. }
  destruct (Rlt_dec dy 0) as [Hy' | Hny'].
  { rewrite cos_neg, sin_neg, cos_PI2, sin_PI2, Rabs_left by lra. lra. }
  lra.
Qed.

Lemma chevron_length (px py beta : R) :
  dist_euc px py (px + 15 * cos beta) (py + 15 * sin beta) = 15.
Proof.
  unfold dist_euc. apply sqrt_lem_1; try lra.
  - apply Rplus_le_le_0_compat; apply Rle_0_sqr.
  - pose proof (sin2_cos2 beta) as H. unfold Rsqr in *. nra.
Qed.

Lemma dist_euc_pow (ax ay bx by_ : R) :
  sqrt ((bx - ax) ^ 2 + (by_ - ay) ^ 2) = dist_euc ax ay bx by_.
Proof.
  unfold dist_euc, Rsqr. f_equal. ring.
Qed.

Lemma Rmin_case_eq (a b : R) :
  (a <= b /\ Rmin a b = a) \/ (b < a /\ Rmin a b = b).
Proof.
  unfold Rmin. destruct (Rle_dec a b); [left | right]; split; lra.
Qed.

(** C7 (arrow geometry).  A preview frame of the Arrow tool strokes the
    segment from the anchor to the current point and then a chevron of two
    segments that start at the current point.  With [theta] the angle
    [atan2 (dy, dx)] of the line, which is the direction from the anchor to
    the current point, the chevron segments have length 15 and point along
    the reversed direction [theta + PI] turned by [- PI / 6] and by
    [+ PI / 6].  For the anchor (0,0) and the point (100,0) they end at
    (100 - 15 * sqrt 3 / 2, 15 / 2) and (100 - 15 * sqrt 3 / 2, - 15 / 2). *)
Theorem arrow_geometry (e : PointerEvent) (rect : DOMRect) (s : State) :
  isDrawing s = true ->
  activeTool s = ARROW ->
  let a := startPos s in
  let p := getPos e rect in
  let theta := Ratan2 (y p - y a) (x p - x a) in
  let back := theta + PI in
  let h1 := {| x := x p + 15 * cos (back - PI / 6);
               y := y p + 15 * sin (back - PI / 6) |} in
  let h2 := {| x := x p + 15 * cos (back + PI / 6);
               y := y p + 15 * sin (back + PI / 6) |} in
  let b := previewBrush (color s) (brush (canvas s)) in
  let restored :=
    match last_item (history s) with
    | Some top => bitmap (putImageData top 0 0 (canvas s))
    | None => bitmap (canvas s)
    end in
  (forall px py,
     bitmap (canvas (draw e rect s)) px py
     = paint [MoveTo (x p) (y p); LineTo (x h1) (y h1);
              MoveTo (x p) (y p); LineTo (x h2) (y h2)] b
         (paint [MoveTo (x a) (y a); LineTo (x p) (y p)] b restored) px py) /\
  dist_euc (x p) (y p) (x h1) (y h1) = 15 /\
  dist_euc (x p) (y p) (x h2) (y h2) = 15 /\
  (a <> p ->
   x p - x a = dist_euc (x a) (y a) (x p) (y p) * cos theta /\
   y p - y a = dist_euc (x a) (y a) (x p) (y p) * sin theta) /\
  (x a = 0 -> y a = 0 -> x p = 100 -> y p = 0 ->
   theta = 0 /\
   h1 = {| x := 100 - 15 * (sqrt 3 / 2); y := 15 / 2 |} /\
   h2 = {| x := 100 - 15 * (sqrt 3 / 2); y := - (15 / 2) |}).
Proof.
  intros Hd Ht a p theta back h1 h2 b restored.
  split; [| split; [| split; [| split]]].
  - intros px py. unfold draw. rewrite Hd, Ht. simpl.
    fold a. fold p. fold theta.
    assert (E1 : x p - 15 * cos (theta - PI / 6) = x h1).
    { unfold h1, back. simpl.
      replace (theta + PI - PI / 6) with (theta - PI / 6 + PI) by lra.
      rewrite neg_cos. lra. }
    assert (E2 : y p - 15 * sin (theta - PI / 6) = y h1).
    { unfold h1, back. simpl.
      replace (theta + PI - PI / 6) with (theta - PI / 6 + PI) by lra.
      rewrite neg_sin. lra. }
    assert (E3 : x p - 15 * cos (theta + PI / 6) = x h2).
    { unfold h2, back. simpl.
      replace (theta + PI + PI / 6) with (theta + PI / 6 + PI) by lra.
      rewrite neg_cos. lra. }
    assert (E4 : y p - 15 * sin (theta + PI / 6) = y h2).
    { unfold h2, back. simpl.
      replace (theta + PI + PI / 6) with (theta + PI / 6 + PI) by lra.
      rewrite neg_sin. lra. }
    rewrite E1, E2, E3, E4. unfold restored.
    destruct (last_item (history s)); reflexivity.
  - apply chevron_length.
  - apply chevron_length.
  - intros Hap.
    assert (Hne : x p - x a <> 0 \/ y p - y a <> 0).
    { destruct (Req_dec (x p - x a) 0) as [Ex | Ex]; [| now left].
      destruct (Req_dec (y p - y a) 0) as [Ey | Ey]; [| now right].
      exfalso. apply Hap. destruct a as [ax ay], p as [bx by_].
      simpl in *. f_equal; lra. }
    rewrite <- dist_euc_pow. now apply Ratan2_polar.
  - intros Hax Hay Hpx Hpy.
    assert (Eth : theta = 0).
    { unfold theta, Ratan2. rewrite Hax, Hay, Hpx, Hpy.
      destruct (Rlt_dec 0 (100 - 0)); [| lra].
      replace ((0 - 0) / (100 - 0)) with 0 by lra. apply atan_0. }
    split; [exact Eth |].
    unfold h1, h2, back. rewrite Eth, Hpx, Hpy.
    replace (0 + PI - PI / 6) with (- (PI / 6) + PI) by lra.
    replace (0 + PI + PI / 6) with (PI / 6 + PI) by lra.
    rewrite !neg_cos, !neg_sin, cos_neg, sin_neg, cos_PI6, sin_PI6.
    split; f_equal; lra.
Qed.

(** C8 (circle geometry).  A preview frame of the Circle tool strokes
    one full circle whose centre is the anchor and whose radius is the
    Euclidean distance from the anchor to the current point; for the
    anchor (10,10) and the point (10,20) the radius is 10. *)
Theorem circle_geometry (e : PointerEvent) (rect : DOMRect) (s : State) :
  isDrawing s = true ->
  activeTool s = CIRCLE ->
  let a := startPos s in
  let p := getPos e rect in
  let radius := dist_euc (x a) (y a) (x p) (y p) in
  let b := previewBrush (color s) (brush (canvas s)) in
  let restored :=
    match last_item (history s) with
    | Some top => bitmap (putImageData top 0 0 (canvas s))
    | None => bitmap (canvas s)
    end in
  path (canvas (draw e rect s)) = [Arc (x a) (y a) radius 0 (2 * PI)] /\
  (forall px py,
     bitmap (canvas (draw e rect s)) px py
     = paint [Arc (x a) (y a) radius 0 (2 * PI)] b restored px py) /\
  (x a = 10 -> y a = 10 -> x p = 10 -> y p = 20 ->
   path (canvas (draw e rect s)) = [Arc 10 10 10 0 (2 * PI)]).
Proof.
  intros Hd Ht a p radius b restored.
  assert (Hpath : path (canvas (draw e rect s))
                  = [Arc (x a) (y a) radius 0 (2 * PI)]).
  { unfold radius. rewrite <- dist_euc_pow.
    unfold draw. rewrite Hd, Ht. reflexivity. }
  split; [exact Hpath | split].
  - intros px py. unfold radius. rewrite <- dist_euc_pow.
    unfold draw, restored. rewrite Hd, Ht.
    destruct (last_item (history s)); reflexivity.
  - intros Hax Hay Hpx Hpy. rewrite Hpath. unfold radius, dist_euc.
    rewrite Hax, Hay, Hpx, Hpy.
    replace ((10 - 10)² + (10 - 20)²) with (10 * 10)
      by (unfold Rsqr; ring).
    rewrite sqrt_square by lra. reflexivity.
Qed.

Lemma fit_unscaled (img : Image Pixel) (innerWidth innerHeight : Z) :
  IZR (img_width img) <= IZR innerWidth ->
  IZR (img_height img) <= IZR innerHeight * (7 / 10) ->
  fit img innerWidth innerHeight
  = (IZR (img_width img), IZR (img_height img)).
Proof.
  intros Hw Hh. unfold fit. simpl.
  destruct (Rlt_dec (IZR innerWidth) (IZR (img_width img))); [lra |].
  destruct (Rlt_dec (IZR innerHeight * (7 / 10)) (IZR (img_height img)));
    [lra | reflexivity].
Qed.

Lemma onload_unscaled (img : Image Pixel) (innerWidth innerHeight : Z)
  (s : State) :
  IZR (img_width img) <= IZR innerWidth ->
  IZR (img_height img) <= IZR innerHeight * (7 / 10) ->
  width (canvas (onload img innerWidth innerHeight s)) = img_width img /\
  height (canvas (onload img innerWidth innerHeight s)) = img_height img.
Proof.
  intros Hw Hh.
  change (Rtrunc (fst (fit img innerWidth innerHeight)) = img_width img /\
          Rtrunc (snd (fit img innerWidth innerHeight)) = img_height img).
  rewrite fit_unscaled by assumption. simpl.
  now rewrite !Rtrunc_IZR.
Qed.

End RealGeometry.

(** ** The fit of the image, in the arithmetic of the code *)

Section Fit.
Context {num Pixel Blob : Type} {NumOps : JSNumber num}
        {RasterOps : Raster num Pixel Blob}.

Local Open Scope Z_scope.

(** C9 as the code has it (canvas fit).  All numbers, comparisons and
    products being those of the code (doubles in the browser): an image
    wider than the window, or taller than the window's height times 0.7,
    is drawn with both dimensions multiplied by
    [min (maxW / imgW, maxH / imgH)]; any other image is drawn at its own
    size, never enlarged.  The canvas takes the integer part of each
    dimension of the drawn size, which for an image drawn at its own size
    is the image's size as soon as the conversion of its dimensions to
    numbers and back loses nothing.  The canvas shows the image drawn at
    that size over transparent pixels. *)
Theorem canvas_fit (img : Image Pixel) (innerWidth innerHeight : Z)
  (s : State num Pixel) :
  let imgW := (#(img_width img))%js in
  let imgH := (#(img_height img))%js in
  let maxW := (#innerWidth)%js in
  let maxH := (#innerHeight * (#7 / #10))%js in
  let scale := Math_min (maxW / imgW)%js (maxH / imgH)%js in
  let drawn := fit img innerWidth innerHeight in
  let c := canvas (onload img innerWidth innerHeight s) in
  ((imgW >? maxW)%js || (imgH >? maxH)%js = true ->
   drawn = ((imgW * scale)%js, (imgH * scale)%js) /\
   width c = toLength (imgW * scale)%js /\
   height c = toLength (imgH * scale)%js) /\
  ((imgW >? maxW)%js || (imgH >? maxH)%js = false ->
   drawn = (imgW, imgH) /\
   width c = toLength imgW /\
   height c = toLength imgH /\
   (toLength imgW = img_width img -> toLength imgH = img_height img ->
    width c = img_width img /\ height c = img_height img)) /\
  forall px py,
    bitmap c px py
    = sourceOver (imagePixel img (#0)%js (#0)%js (fst drawn) (snd drawn) px py)
        transparent.
Proof.
  intros imgW imgH maxW maxH scale drawn c.
  assert (Hc : width c = toLength (fst drawn) /\
               height c = toLength (snd drawn))
    by (split; reflexivity).
  destruct Hc as [Hcw Hch].
  split; [| split].
  - intros Hex.
    assert (Hd : drawn = ((imgW * scale)%js, (imgH * scale)%js)).
    { unfold drawn, fit. fold imgW imgH maxW maxH. rewrite Hex.
      reflexivity. }
    rewrite Hcw, Hch, Hd. simpl. auto.
  - intros Hex.
    assert (Hd : drawn = (imgW, imgH)).
    { unfold drawn, fit. fold imgW imgH maxW maxH. rewrite Hex.
      reflexivity. }
    rewrite Hcw, Hch, Hd. simpl.
    split; [reflexivity | split; [reflexivity | split; [reflexivity |]]].
    intros -> ->. split; reflexivity.
  - intros px py. reflexivity.
Qed.

End Fit.

(** ** The properties at work on the example session *)

Local Open Scope R_scope.

Lemma session_dims :
  width (canvas session) = 400%Z /\ height (canvas session) = 300%Z.
Proof.
  apply (onload_unscaled (photo 400 300) 1000 1000); simpl; lra.
Qed.

Lemma session_hasPixels : hasPixels (canvas session).
Proof.
  destruct session_dims as [Hw Hh]. unfold hasPixels. rewrite Hw, Hh.
  split; reflexivity.
Qed.



Lemma undo_contract_witness :
  let s2 := run (gesture (mouse 0 0) [mouse 3 4]) session in
  ((2 <= length (history s2))%nat /\
   history (handleUndo s2) = removelast (history s2)) /\
  ((length (history session) <= 1)%nat /\ handleUndo session = session) /\
  ((1 <= length (history s2))%nat /\
   (1 <= length (history (undos 5 s2)))%nat).
Proof.
  intros s2.
  assert (H2 : (2 <= length (history s2))%nat) by (simpl; lia).
  assert (H1 : (length (history session) <= 1)%nat) by (simpl; lia).
  assert (H0 : (1 <= length (history s2))%nat) by (simpl; lia).
  split; [| split].
  - split; [exact H2 |].
    apply (proj1 (proj1 (undo_contract s2) H2)).
  - split; [exact H1 |].
    apply (proj1 (proj1 (proj2 (undo_contract session)) H1)).
  - split; [exact H0 |].
    apply (proj2 (proj2 (undo_contract s2)) H0).
Defined.

Lemma history_cap_witness :
  let snapshots := map numbered (seq 0 12) in
  (10 < length snapshots)%nat /\
  history (setHistory (pushes snapshots) session) = map numbered (seq 2 10).
Proof.
  intros snapshots.
  assert (H : (10 < length snapshots)%nat) by (simpl; lia).
  split; [exact H |].
  apply (proj1 (proj2 (proj2 (history_cap snapshots session H)))).
Defined.

Lemma nested_start_restarts_gesture_witness :
  isDrawing midGesture = true /\
  startPos (startDrawing (MouseEvent 5 5) atOrigin midGesture)
  = getPos (MouseEvent 5 5) atOrigin.
Proof.
  split; [reflexivity |].
  apply (nested_start_restarts_gesture (MouseEvent 5 5) atOrigin
           midGesture eq_refl).
Defined.


Lemma largeSession_dims :
  width (canvas largeSession) = 2000%Z /\
  height (canvas largeSession) = 1000%Z.
Proof.
  apply (onload_unscaled (photo 2000 1000) 2000 2000); simpl; lra.
Qed.

Lemma largeSession_not_encoded :
  toBlob "image/jpeg" (85 / 100) (canvas largeSession) = None.
Proof.
  unfold toBlob. destruct largeSession_dims as [-> ->]. reflexivity.
Qed.

(** *** A tap before the photo has loaded *)





(** C5 as the spec states it fails: in the middle of a gesture anchored
    at (0,0) whose open path already has a segment, a second gesture start
    at (5,5) moves the anchor and replaces the path. *)
Lemma nested_start_not_ignored :
  isDrawing midGesture = true /\
  startPos (startDrawing (MouseEvent 5 5) atOrigin midGesture)
  <> startPos midGesture /\
  path (canvas (startDrawing (MouseEvent 5 5) atOrigin midGesture))
  <> path (canvas midGesture).
Proof.
  split; [reflexivity | split].
  - simpl. intros H. injection H as Hx Hy. lra.
  - simpl. discriminate.
Qed.

(** C6 as the spec states it fails: the example encoder yields no
    payload for a canvas of 2000 by 1000 pixels, and [handleSave] then
    calls neither [onSave] nor [onCancel]: nothing reaches the host. *)
Lemma export_failure_not_signalled :
  toBlob "image/jpeg" (85 / 100) (canvas largeSession) = None /\
  handleSave largeSession = [].
Proof.
  split; [exact largeSession_not_encoded |].
  unfold handleSave. simpl ofZ. simpl div.
  now rewrite largeSession_not_encoded.
Qed.

Lemma export_without_payload_is_silent_witness :
  toBlob "image/jpeg" (85 / 100) (canvas largeSession) = None /\
  handleSave largeSession = [] /\
  handle largeSession ClickSave = largeSession.
Proof.
  split; [exact largeSession_not_encoded |].
  apply (proj1 (export_without_payload_is_silent largeSession)).
  exact largeSession_not_encoded.
Defined.

(** C9 as the spec states it fails: a photo of 100 by 100 pixels in a
    window of 1000 by 1000 gets a canvas of 100 by 100, where the factor
    [min (1000 / 100, 700 / 100)] would give 700 by 700. *)
Lemma small_image_not_scaled :
  width (canvas smallSession) = 100%Z /\
  height (canvas smallSession) = 100%Z /\
  Rtrunc (100 * Rmin (1000 / 100) (1000 * (7 / 10) / 100)) = 700%Z /\
  width (canvas smallSession)
  <> Rtrunc (100 * Rmin (1000 / 100) (1000 * (7 / 10) / 100)).
Proof.
  assert (Hd : width (canvas smallSession) = 100%Z /\
               height (canvas smallSession) = 100%Z).
  { apply (onload_unscaled (photo 100 100) 1000 1000); simpl; lra. }
  assert (Hm : Rtrunc (100 * Rmin (1000 / 100) (1000 * (7 / 10) / 100))
               = 700%Z).
  { replace (100 * Rmin (1000 / 100) (1000 * (7 / 10) / 100))
      with (IZR 700).
    - apply Rtrunc_IZR.
    - destruct (Rmin_case_eq (1000 / 100) (1000 * (7 / 10) / 100))
        as [[H1 H2] | [H1 H2]]; rewrite H2; lra. }
  destruct Hd as [Hw Hh].
  repeat split; trivial. rewrite Hw, Hm. discriminate.
Qed.

(** The fit on doubles: 0.7 has no exact double and 720 * 0.7 rounds to
    503.99999999999994, so a photo of 640 by 504 pixels in a window of 1280
    by 720 counts as too tall; the factor is the double below 1 and the
    canvas is 639 by 503. *)
Lemma canvas_fit_witness :
  let D := Binary64Arith in
  let c := canvas (onload (NumOps := D) (photo 640 504) 1280 720
                     (mounted (NumOps := D))) in
  (@gt _ D (@ofZ _ D 640) (@ofZ _ D 1280)
   || @gt _ D (@ofZ _ D 504)
        (@mul _ D (@ofZ _ D 720) (@div _ D (@ofZ _ D 7) (@ofZ _ D 10)))
   = true) /\
  (720 * (7 / 10) <? 504)%float = true /\
  width c = 639%Z /\
  height c = 503%Z.
Proof.
  intros D c.
  assert (Hex : @gt _ D (@ofZ _ D 640) (@ofZ _ D 1280)
                || @gt _ D (@ofZ _ D 504)
                     (@mul _ D (@ofZ _ D 720)
                        (@div _ D (@ofZ _ D 7) (@ofZ _ D 10)))
                = true)
    by (vm_compute; reflexivity).
  split; [exact Hex |].
  split; [vm_compute; reflexivity |].
  destruct (proj1 (canvas_fit (NumOps := D) (photo 640 504) 1280 720
                     (mounted (NumOps := D))) Hex) as (_ & Hw & Hh).
  unfold c. split; [rewrite Hw | rewrite Hh]; vm_compute; reflexivity.
Defined.

Lemma arrow_geometry_witness :
  let s := run [ClickTool ARROW; GestureStart (MouseEvent 0 0) atOrigin]
             session in
  let p := getPos (MouseEvent 100 0) atOrigin in
  isDrawing s = true /\
  activeTool s = ARROW /\
  dist_euc (x p) (y p)
    (x p + 15 * cos (Ratan2 (y p - y (startPos s)) (x p - x (startPos s))
                     + PI - PI / 6))
    (y p + 15 * sin (Ratan2 (y p - y (startPos s)) (x p - x (startPos s))
                     + PI - PI / 6)) = 15.
Proof.
  intros s p.
  split; [reflexivity | split; [reflexivity |]].
  apply (proj1 (proj2 (arrow_geometry (MouseEvent 100 0) atOrigin s
                         eq_refl eq_refl))).
Defined.

Lemma circle_geometry_witness :
  let s := run [ClickTool CIRCLE; GestureStart (MouseEvent 10 10) atOrigin]
             session in
  let e := MouseEvent 10 20 in
  isDrawing s = true /\
  activeTool s = CIRCLE /\
  path (canvas (draw e atOrigin s)) = [Arc 10 10 10 0 (2 * PI)].
Proof.
  intros s e.
  split; [reflexivity | split; [reflexivity |]].
  apply (proj2 (proj2 (circle_geometry e atOrigin s eq_refl eq_refl)));
    simpl; lra.
Defined.

(** *** The examples of the circle and of the fit, computed on doubles *)

Lemma circle_radius_binary64
  (f64_cos f64_sin : float -> float) (f64_atan2 : float -> float -> float) :
  path (canvas
          (run (NumOps := Binary64 f64_cos f64_sin f64_atan2)
             [ClickTool CIRCLE;
              GestureStart (MouseEvent 10%float 10%float) atOrigin64;
              GestureMove (MouseEvent 10%float 20%float) atOrigin64]
             (session64 f64_cos f64_sin f64_atan2 400 300)))
  = [Arc 10%float 10%float 10%float 0%float 0x1.921fb54442d18p+2%float].
Proof.
  vm_compute. reflexivity.
Qed.

Lemma fit_binary64
  (f64_cos f64_sin : float -> float) (f64_atan2 : float -> float -> float) :
  let D := Binary64 f64_cos f64_sin f64_atan2 in
  let loaded := session64 f64_cos f64_sin f64_atan2 in
  fit (NumOps := D) (photo 100 100) 1000 1000 = (100%float, 100%float) /\
  fit (NumOps := D) (photo 2000 1400) 1000 1000 = (1000%float, 700%float) /\
  width (canvas (loaded 100%Z 100%Z)) = 100%Z /\
  height (canvas (loaded 100%Z 100%Z)) = 100%Z /\
  width (canvas (loaded 2000%Z 1400%Z)) = 1000%Z /\
  height (canvas (loaded 2000%Z 1400%Z)) = 700%Z.
Proof.
  repeat split; vm_compute; reflexivity.
Qed.

(** Where doubles and reals part: a photo of 1062 by 700 pixels in a
    window of 1000 by 1000 is scaled by 1000 / 1062, and 1062 times that
    double is below 1000, so the canvas is 999 wide (over the reals it
    would be 1000); 1000 * 0.7 is exactly 700 on doubles, so a photo 700
    tall fits, while 720 * 0.7 is below 504. *)
Lemma fit_rounding_binary64
  (f64_cos f64_sin : float -> float) (f64_atan2 : float -> float -> float) :
  let D := Binary64 f64_cos f64_sin f64_atan2 in
  let loaded (w h iw ih : Z) :=
    onload (NumOps := D) (photo w h) iw ih (mounted (NumOps := D)) in
  width (canvas (loaded 1062 700 1000 1000)%Z) = 999%Z /\
  height (canvas (loaded 1062 700 1000 1000)%Z) = 659%Z /\
  width (canvas (loaded 640 504 1280 720)%Z) = 639%Z /\
  height (canvas (loaded 640 504 1280 720)%Z) = 503%Z /\
  width (canvas (loaded 640 700 1000 1000)%Z) = 640%Z /\
  height (canvas (loaded 640 700 1000 1000)%Z) = 700%Z /\
  width (canvas (loaded 5000 2 1000 1000)%Z) = 1000%Z /\
  height (canvas (loaded 5000 2 1000 1000)%Z) = 0%Z.
Proof.
  repeat split; vm_compute; reflexivity.
Qed.

(** With the layer-counting raster, a pixel of the loaded photo holds one
    layer.  After an arrow gesture of three frames it holds three (the
    photo, the shaft, the chevron), not one more pair per frame; the pen,
    which never restores, adds one layer per frame. *)
Lemma preview_layers_binary64
  (f64_cos f64_sin : float -> float) (f64_atan2 : float -> float -> float) :
  let D := Binary64 f64_cos f64_sin f64_atan2 in
  let loaded := session64 f64_cos f64_sin f64_atan2 400%Z 300%Z in
  let at64 (px py : float) := (MouseEvent px py, atOrigin64) in
  let frames := [at64 20 10; at64 50 30; at64 100 0]%float in
  bitmap (canvas loaded) 5%Z 5%Z = 1%nat /\
  bitmap (canvas (run (NumOps := D) (gesture (at64 0%float 0%float) frames)
                    (run (NumOps := D) [ClickTool ARROW] loaded)))
    5%Z 5%Z = 3%nat /\
  bitmap (canvas (run (NumOps := D) (gesture (at64 0%float 0%float) frames)
                    (run (NumOps := D) [ClickTool CIRCLE] loaded)))
    5%Z 5%Z = 2%nat /\
  bitmap (canvas (run (NumOps := D) (gesture (at64 0%float 0%float) frames) loaded))
    5%Z 5%Z = 4%nat.
Proof.
  repeat split; vm_compute; reflexivity.
Qed.

(** The tap before the load, computed on doubles: after the load of a
    photo of 400 by 300 and an undo, the canvas is 400 by 300 over a most
    recent snapshot of 300 by 150, blank in that corner and showing the
    photo elsewhere; a Circle gesture of two frames then leaves both
    circles outside the corner, and a tap pushes a snapshot of 400 by
    300. *)
Lemma early_tap_binary64
  (f64_cos f64_sin : float -> float) (f64_atan2 : float -> float -> float) :
  let D := Binary64 f64_cos f64_sin f64_atan2 in
  let at64 (px py : float) := (MouseEvent px py, atOrigin64) in
  let early :=
    run (NumOps := D) [ClickUndo]
      (onload (NumOps := D) (photo 400 300) 1000 1000
         (run (NumOps := D) (gesture (at64 5%float 5%float) [])
            (mounted (NumOps := D)))) in
  let circled :=
    run (NumOps := D)
      (gesture (at64 0%float 0%float) [at64 3%float 4%float;
                                       at64 6%float 8%float])
      (run (NumOps := D) [ClickTool CIRCLE] early) in
  let tapped := run (NumOps := D) (gesture (at64 7%float 7%float) []) early in
  isDrawing early = false /\
  (width (canvas early), height (canvas early)) = (400%Z, 300%Z) /\
  option_map (fun d => (data_width d, data_height d))
    (last_item (history early)) = Some (300%Z, 150%Z) /\
  bitmap (canvas early) 5%Z 5%Z = 0%nat /\
  bitmap (canvas early) 350%Z 200%Z = 1%nat /\
  bitmap (canvas circled) 350%Z 200%Z = 3%nat /\
  bitmap (canvas circled) 5%Z 5%Z = 1%nat /\
  option_map (fun d => (data_width d, data_height d))
    (last_item (history tapped)) = Some (400%Z, 300%Z).
Proof.
  repeat split; vm_compute; reflexivity.
Qed.

(** ** More of the editor: bounds of the history, undo after gestures,
    pen strokes, previews without a snapshot, pointer positions *)

Section MoreProperties.
Context {num Pixel Blob : Type} {NumOps : JSNumber num}
        {RasterOps : Raster num Pixel Blob}.

Local Abbreviation State := (State num Pixel).
Local Abbreviation PointerEvent := (PointerEvent num).
Local Abbreviation DOMRect := (DOMRect num).
Local Abbreviation Event := (Event num).
Local Abbreviation ImageData := (ImageData Pixel).
Local Abbreviation Canvas := (Canvas num Pixel).
Local Open Scope nat_scope.

Lemma length_push (d : ImageData) (h : list ImageData) :
  length (push d h) = Nat.min (length h + 1) 10.
Proof.
  unfold push. rewrite length_app, slice_last9, length_skipn. simpl. lia.
Qed.

Lemma handle_history_le (s : State) (ev : Event) :
  length (history s) <= 10 -> length (history (handle s ev)) <= 10.
Proof.
  intros Hs. destruct ev as [e rect | e rect | | | t | c |]; simpl; trivial.
  - destruct (draw_state e rect s) as (-> & _). exact Hs.
  - unfold stopDrawing. destruct (isDrawing s); [| exact Hs].
    simpl. rewrite length_push. lia.
  - destruct (Nat.le_gt_cases (length (history s)) 1) as [H1 | H1].
    + now rewrite handleUndo_floor.
    + rewrite handleUndo_history, removelast_length by lia. lia.
Qed.

Lemma run_history_le (evs : list Event) (s : State) :
  length (history s) <= 10 -> length (history (run evs s)) <= 10.
Proof.
  revert s. induction evs as [|ev evs IH]; intros s Hs; [exact Hs |].
  apply IH. now apply handle_history_le.
Qed.

Lemma undos_succ_r (k : nat) (s : State) :
  undos (S k) s = undos k (handleUndo s).
Proof.
  apply Nat.iter_succ_r.
Qed.

Lemma undos_length (k : nat) (s : State) :
  1 <= length (history s) ->
  length (history (undos k s)) = Nat.max 1 (length (history s) - k).
Proof.
  intros Hs. induction k as [|k IH]; [change (undos 0 s) with s; lia |].
  change (undos (S k) s) with (handleUndo (undos k s)).
  destruct (Nat.le_gt_cases (length (history (undos k s))) 1) as [H1 | H1].
  - rewrite handleUndo_floor by exact H1. lia.
  - rewrite handleUndo_history, removelast_length by lia. lia.
Qed.

Lemma undos_floor (k : nat) (s : State) :
  length (history s) <= 1 -> undos k s = s.
Proof.
  intros Hs. induction k as [|k IH]; [reflexivity |].
  change (undos (S k) s) with (handleUndo (undos k s)).
  rewrite IH. now apply handleUndo_floor.
Qed.

Lemma undos_add (j k : nat) (s : State) :
  undos (j + k) s = undos j (undos k s).
Proof.
  induction j as [|j IH]; [reflexivity |].
  change (undos (S j + k) s) with (handleUndo (undos (j + k) s)).
  now rewrite IH.
Qed.

Lemma handle_history_ge (s : State) (ev : Event) :
  1 <= length (history s) -> 1 <= length (history (handle s ev)).
Proof.
  intros Hs. destruct ev as [e rect | e rect | | | t | c |]; simpl; trivial.
  - destruct (draw_state e rect s) as (-> & _). exact Hs.
  - unfold stopDrawing. destruct (isDrawing s); [| exact Hs].
    simpl. rewrite length_push. lia.
  - now apply handleUndo_length.
Qed.

Lemma run_history_ge (evs : list Event) (s : State) :
  1 <= length (history s) -> 1 <= length (history (run evs s)).
Proof.
  revert s. induction evs as [|ev evs IH]; intros s Hs; [exact Hs |].
  apply IH. now apply handle_history_ge.
Qed.

Lemma session_history_bounds (img : Image Pixel)
  (innerWidth innerHeight : Z) (s0 : State) (evs : list Event) :
  length (history s0) <= 10 ->
  1 <= length (history (run evs (onload img innerWidth innerHeight s0)))
  <= 10.
Proof.
  intros H0.
  assert (Hl : length (history (onload img innerWidth innerHeight s0))
               = Nat.min (length (history s0) + 1) 10).
  { unfold onload, saveState. simpl. apply length_push. }
  split.
  - apply run_history_ge. lia.
  - apply run_history_le. lia.
Qed.

(** X1.  Whatever happened before the image loaded, once it has loaded
    on a canvas with pixels the history holds at every moment at least
    one snapshot and at most ten.  So nine undos in a row always bring it
    down to a single snapshot, and any undo after that changes nothing. *)
Theorem history_between_one_and_ten (img : Image Pixel)
  (innerWidth innerHeight : Z) (before after : list Event) :
  let loaded := onload img innerWidth innerHeight (run before mounted) in
  hasPixels (canvas loaded) ->
  let s := run after loaded in
  1 <= length (history s) <= 10 /\
  length (history (undos 9 s)) = 1 /\
  forall k, 9 <= k -> undos k s = undos 9 s.
Proof.
  intros loaded _ s.
  assert (Hb : 1 <= length (history s) <= 10).
  { apply session_history_bounds. apply run_history_le. simpl. lia. }
  assert (H9 : length (history (undos 9 s)) = 1).
  { rewrite undos_length by lia. lia. }
  split; [exact Hb | split; [exact H9 |]].
  intros k Hk. replace k with ((k - 9) + 9) by lia.
  rewrite undos_add. apply undos_floor. lia.
Qed.

Lemma handleUndo_isDrawing (s : State) :
  isDrawing (handleUndo s) = isDrawing s.
Proof.
  unfold handleUndo. destruct (length (history s) <=? 1); [reflexivity |].
  destruct (last_item (removelast (history s))); reflexivity.
Qed.

Lemma undos_state (k : nat) (s : State) :
  isDrawing (undos k s) = isDrawing s /\
  width (canvas (undos k s)) = width (canvas s) /\
  height (canvas (undos k s)) = height (canvas s) /\
  (consistent s -> consistent (undos k s)).
Proof.
  induction k as [|k IH]; [now split; [| split; [| split]] |].
  destruct IH as (I1 & I2 & I3 & I4).
  change (undos (S k) s) with (handleUndo (undos k s)).
  destruct (handleUndo_dims (undos k s)) as [D1 D2].
  rewrite handleUndo_isDrawing.
  split; [congruence |]. split; [congruence |]. split; [congruence |].
  intros C. now apply handleUndo_consistent, I4.
Qed.

Lemma undos_pops (l h : list ImageData) (s : State) :
  history s = h ++ l -> h <> [] ->
  history (undos (length l) s) = h.
Proof.
  revert s. induction l as [|a l IH] using rev_ind; intros s Hs Hh.
  - simpl. now rewrite app_nil_r in Hs.
  - rewrite length_app, Nat.add_comm. simpl length.
    change (undos (1 + length l) s) with (undos (S (length l)) s).
    rewrite undos_succ_r. apply IH; [| exact Hh].
    rewrite handleUndo_history.
    + now rewrite Hs, app_assoc, removelast_last.
    + rewrite Hs, !length_app. simpl.
      destruct h; [congruence | simpl; lia].
Qed.

Lemma gesture_commits (start : PointerEvent * DOMRect)
  (moves : list (PointerEvent * DOMRect)) (s : State) :
  let s' := run (gesture start moves) s in
  isDrawing s' = false /\
  width (canvas s') = width (canvas s) /\
  height (canvas s') = height (canvas s) /\
  exists d, history s' = push d (history s).
Proof.
  intros s'.
  set (s1 := startDrawing (fst start) (snd start) s).
  set (s2 := run (map (fun m => GestureMove (fst m) (snd m)) moves) s1).
  assert (Es' : s' = stopDrawing s2).
  { unfold s', gesture. simpl. fold s1. now rewrite run_app. }
  destruct (previews_state moves s1)
    as (I1 & I2 & _ & _ & _ & I6 & I7 & _).
  fold s2 in I1, I2, I6, I7. simpl in I1, I2, I6, I7.
  rewrite Es'. unfold stopDrawing. rewrite I1. simpl.
  rewrite I2. repeat split; trivial. eexists. reflexivity.
Qed.

Lemma gestures_commit
  (gs : list ((PointerEvent * DOMRect) * list (PointerEvent * DOMRect)))
  (s : State) :
  isDrawing s = false ->
  let s' := run (gestures gs) s in
  isDrawing s' = false /\
  width (canvas s') = width (canvas s) /\
  height (canvas s') = height (canvas s) /\
  exists ds, length ds = length gs /\ history s' = pushes ds (history s).
Proof.
  revert s. induction gs as [|[start moves] gs IH]; intros s Hs s'.
  - repeat split; trivial. now exists [].
  - assert (Es' : s' = run (gestures gs) (run (gesture start moves) s)).
    { unfold s', gestures. cbn [map concat fst snd]. apply run_app. }
    destruct (gesture_commits start moves s) as (G1 & G2 & G3 & d & G4).
    destruct (IH (run (gesture start moves) s) G1)
      as (I1 & I2 & I3 & ds & I4 & I5).
    rewrite Es'.
    split; [exact I1 |]. split; [congruence |]. split; [congruence |].
    exists (d :: ds). split; [simpl; congruence |].
    rewrite I5, G4. reflexivity.
Qed.

Lemma most_recent_all (A : Type) (n : nat) (l : list A) :
  length l <= n -> most_recent n l = l.
Proof.
  intros Hl. unfold most_recent.
  now replace (length l - n) with 0 by lia.
Qed.

Lemma most_recent_split (A : Type) (h ds : list A) :
  length ds <= 10 ->
  most_recent 10 (h ++ ds) = most_recent (10 - length ds) h ++ ds.
Proof.
  intros Hd. unfold most_recent. rewrite length_app, skipn_app.
  replace (length h + length ds - 10 - length h) with 0 by lia.
  change (skipn 0 ds) with ds. f_equal. f_equal. lia.
Qed.

Lemma most_recent_nonempty (A : Type) (n : nat) (l : list A) :
  1 <= n -> l <> [] -> most_recent n l <> [].
Proof.
  intros Hn Hl E. apply (f_equal (@length A)) in E.
  rewrite length_most_recent in E. simpl in E.
  destruct l; [congruence | simpl in E; lia].
Qed.

Lemma last_item_most_recent (A : Type) (n : nat) (l : list A) :
  1 <= n -> last_item (most_recent n l) = last_item l.
Proof.
  intros Hn. destruct l as [|a l] using rev_ind; [reflexivity |].
  unfold most_recent. rewrite length_app, skipn_app, last_item_app.
  simpl length.
  replace (length l + 1 - n - length l) with 0 by lia.
  simpl. apply last_item_app.
Qed.

(** X2.  When the image loaded on an empty history (no gesture was
    committed before the load) and gave a canvas with pixels, and no
    gesture is active, up to nine whole gestures (with any tool and any
    frames) followed by as many undos bring the canvas back, pixel for
    pixel, to what it showed before the first of them.  The history is
    back to its entries from before, all of them when the gestures did not
    push it past ten, else its most recent ones. *)
Theorem undo_after_gestures_restores_canvas (img : Image Pixel)
  (innerWidth innerHeight : Z) (s0 : State) (evs : list Event)
  (gs : list ((PointerEvent * DOMRect) * list (PointerEvent * DOMRect))) :
  history s0 = [] ->
  hasPixels (canvas (onload img innerWidth innerHeight s0)) ->
  let s := run evs (onload img innerWidth innerHeight s0) in
  isDrawing s = false ->
  length gs <= 9 ->
  let s' := undos (length gs) (run (gestures gs) s) in
  isDrawing s' = false /\
  history s' = most_recent (10 - length gs) (history s) /\
  (length (history s) + length gs <= 10 -> history s' = history s) /\
  width (canvas s') = width (canvas s) /\
  height (canvas s') = height (canvas s) /\
  forall px py,
    inside (width (canvas s)) (height (canvas s)) px py = true ->
    bitmap (canvas s') px py = bitmap (canvas s) px py.
Proof.
  intros H0 _ s Hidle Hn s'.
  assert (Hb : 1 <= length (history s) <= 10).
  { apply session_history_bounds. rewrite H0. simpl. lia. }
  assert (C : consistent s).
  { apply run_consistent. now apply onload_consistent. }
  destruct (gestures_commit gs s Hidle) as (G1 & G2 & G3 & ds & G4 & G5).
  set (s1 := run (gestures gs) s) in *.
  assert (C1 : consistent s1) by now apply run_consistent.
  destruct (undos_state (length gs) s1) as (U1 & U2 & U3 & U4).
  fold s' in U1, U2, U3, U4.
  assert (Hh : history s' = most_recent (10 - length gs) (history s)).
  { unfold s'. rewrite <- G4. apply undos_pops.
    - rewrite G5. destruct ds as [|d ds].
      + simpl. rewrite app_nil_r. symmetry. apply most_recent_all.
        simpl; lia.
      + rewrite pushes_most_recent by discriminate.
        apply most_recent_split. lia.
    - apply most_recent_nonempty; [lia | apply (has_snapshot C)]. }
  split; [congruence |]. split; [exact Hh |].
  split; [intros Hl; rewrite Hh; apply most_recent_all; lia |].
  split; [congruence |]. split; [congruence |].
  intros px py Hin.
  destruct (quiescent C Hidle) as (top & Htop & Ew & Eh & Epx).
  destruct (quiescent (U4 C1)) as (top' & Htop' & Ew' & Eh' & Epx');
    [congruence |].
  rewrite Hh, last_item_most_recent, Htop in Htop' by lia.
  injection Htop' as <-.
  rewrite Epx', Epx; trivial. congruence.
Qed.

Lemma penPath_snoc (a : Point num) (done : list (Point num))
  (p : Point num) :
  penPath a done ++ [LineTo (x p) (y p)] = penPath a (done ++ [p]).
Proof.
  unfold penPath. now rewrite map_app.
Qed.

Lemma pen_frames (moves : list (PointerEvent * DOMRect))
  (a : Point num) (done : list (Point num)) (t : State) :
  isDrawing t = true ->
  activeTool t = PEN ->
  path (canvas t) = penPath a done ->
  let t' := run (previews moves) t in
  path (canvas t') = penPath a (done ++ positions moves) /\
  bitmap (canvas t')
  = penFrames (brush (canvas t)) a done (positions moves)
      (bitmap (canvas t)) /\
  brush (canvas t') = brush (canvas t).
Proof.
  revert done t. induction moves as [|[e rect] moves IH];
    intros done t Hd Ht Hp t'.
  - simpl. rewrite app_nil_r. auto.
  - set (t1 := draw e rect t).
    assert (Et' : t' = run (previews moves) t1) by reflexivity.
    destruct (draw_state e rect t) as (_ & D2 & _ & D4 & _).
    assert (E1 : canvas t1
                 = stroke (lineTo (x (getPos e rect)) (y (getPos e rect))
                             (canvas t))).
    { unfold t1, draw. now rewrite Hd, Ht. }
    assert (Hp1 : path (canvas t1) = penPath a (done ++ [getPos e rect])).
    { rewrite E1. simpl. rewrite Hp. apply penPath_snoc. }
    destruct (@IH (done ++ [getPos e rect]) t1) as (I1 & I2 & I3);
      try (fold t1 in D2, D4; congruence).
    rewrite Et'. cbn [positions map fst snd penFrames].
    fold (positions moves).
    split; [now rewrite I1, <- app_assoc |].
    split; [| rewrite I3, E1; reflexivity].
    rewrite I2, E1. simpl. rewrite Hp, penPath_snoc. reflexivity.
Qed.

(** X3.  A pen gesture never reads the history.  Its path is the
    polyline from the press through every move; every frame strokes the
    whole polyline so far over what the canvas shows, with the colour
    picked at the press; the release commits the canvas as it then is. *)
Theorem pen_stroke_accumulates (start : PointerEvent * DOMRect)
  (moves : list (PointerEvent * DOMRect)) (s : State) :
  activeTool s = PEN ->
  let s' := run (gesture start moves) s in
  let anchor := getPos (fst start) (snd start) in
  path (canvas s') = penPath anchor (positions moves) /\
  bitmap (canvas s')
  = penFrames (gestureBrush (color s)) anchor [] (positions moves)
      (bitmap (canvas s)) /\
  history s'
  = push (getImageData 0 0 (width (canvas s')) (height (canvas s'))
            (canvas s'))
      (history s).
Proof.
  intros Ht s' anchor.
  set (s1 := startDrawing (fst start) (snd start) s).
  set (s2 := run (previews moves) s1).
  assert (Es' : s' = stopDrawing s2).
  { unfold s', gesture. simpl. fold s1. now rewrite run_app. }
  destruct (@pen_frames moves anchor [] s1) as (P1 & P2 & P3);
    try reflexivity; try exact Ht.
  fold s2 in P1, P2, P3.
  destruct (previews_state moves s1) as (I1 & I2 & _).
  fold (previews moves) in I1, I2. fold s2 in I1, I2.
  simpl in I1, I2.
  assert (Ec : canvas s' = canvas s2).
  { rewrite Es'. unfold stopDrawing. now rewrite I1. }
  rewrite Ec. split; [exact P1 |]. split; [exact P2 |].
  rewrite Es'. unfold stopDrawing. rewrite I1. simpl. now rewrite I2.
Qed.

Lemma pen_events_keep_brush (evs : list Event) (t : State) :
  forallb moveOrColor evs = true ->
  activeTool t = PEN ->
  brush (canvas (run evs t)) = brush (canvas t) /\
  activeTool (run evs t) = PEN.
Proof.
  revert t. induction evs as [|ev evs IH]; intros t Hevs Ht; [now split |].
  simpl in Hevs. apply andb_prop in Hevs as [Hev Hevs].
  destruct ev as [| e rect | | | | c |]; try discriminate; simpl.
  - destruct (draw_state e rect t) as (_ & _ & _ & D4 & _).
    destruct (IH (draw e rect t) Hevs) as [I1 I2]; [congruence |].
    split; [| exact I2]. rewrite I1.
    unfold draw. destruct (isDrawing t); [| reflexivity].
    now rewrite Ht.
  - destruct (IH (setColor c t) Hevs Ht) as [I1 I2]. now split.
Qed.

(** X4.  The pen keeps the colour of the press: whatever colours are
    clicked between the frames of a pen gesture, the brush stays the one
    [startDrawing] set.  A shape frame instead takes the colour that is
    active when it is drawn. *)
Theorem pen_colour_fixed_at_press (e : PointerEvent) (rect : DOMRect)
  (evs : list Event) (s : State) :
  forallb moveOrColor evs = true ->
  (activeTool s = PEN ->
   brush (canvas (run (GestureStart e rect :: evs) s))
   = gestureBrush (color s)) /\
  (activeTool s = CIRCLE \/ activeTool s = ARROW ->
   forall c e' rect',
     strokeStyle
       (brush (canvas (run (GestureStart e rect :: evs
                              ++ [ClickColor c; GestureMove e' rect']) s)))
     = c).
Proof.
  intros Hevs. split.
  - intros Ht. simpl.
    destruct (pen_events_keep_brush evs (startDrawing e rect s) Hevs Ht)
      as [-> _].
    reflexivity.
  - intros Ht c e' rect'.
    change (GestureStart e rect :: evs ++ [ClickColor c; GestureMove e' rect'])
      with ((GestureStart e rect :: evs)
            ++ [ClickColor c; GestureMove e' rect']).
    rewrite run_app.
    set (t := run (GestureStart e rect :: evs) s).
    assert (Hd : isDrawing t = true /\ activeTool t = activeTool s).
    { unfold t. simpl.
      assert (G : forall l (u : State),
                 forallb moveOrColor l = true ->
                 isDrawing (run l u) = isDrawing u /\
                 activeTool (run l u) = activeTool u).
      { clear. induction l as [|ev l IH]; intros u Hl; [now split |].
        simpl in Hl. apply andb_prop in Hl as [Hev Hl].
        destruct ev as [| e rect | | | | c |]; try discriminate; simpl.
        - destruct (draw_state e rect u) as (_ & D2 & _ & D4 & _).
          destruct (IH (draw e rect u) Hl). split; congruence.
        - destruct (IH (setColor c u) Hl). now split. }
      destruct (G evs (startDrawing e rect s) Hevs). now split. }
    destruct Hd as [Hd Htool]. simpl. unfold draw. simpl. rewrite Hd. simpl.
    rewrite Htool.
    destruct Ht as [-> | ->]; destruct (last_item (history t)); reflexivity.
Qed.

Lemma shape_frames_without_snapshot (moves : list (PointerEvent * DOMRect))
  (t : State) :
  history t = [] ->
  isDrawing t = true ->
  activeTool t = CIRCLE \/ activeTool t = ARROW ->
  bitmap (canvas (run (previews moves) t))
  = trails (previewBrush (color t) (brush (canvas t))) (activeTool t)
      (startPos t) (positions moves) (bitmap (canvas t)).
Proof.
  revert t. induction moves as [|[e rect] moves IH]; intros t Hh Hd Ht;
    [reflexivity |].
  set (t1 := draw e rect t).
  change (run (previews ((e, rect) :: moves)) t)
    with (run (previews moves) t1).
  destruct (draw_state e rect t) as (D1 & D2 & D3 & D4 & D5).
  fold t1 in D1, D2, D3, D4, D5.
  assert (E1 : brush (canvas t1) = previewBrush (color t) (brush (canvas t))
               /\ bitmap (canvas t1)
                  = composite (previewBrush (color t) (brush (canvas t)))
                      (shape (activeTool t) (startPos t) (getPos e rect))
                      (bitmap (canvas t))).
  { unfold t1, draw. rewrite Hd, Hh. simpl.
    destruct Ht as [-> | ->]; split; reflexivity. }
  destruct E1 as [Eb Ebm].
  rewrite IH by (try congruence; now rewrite D4).
  rewrite D5, D4, D3, Eb, Ebm. reflexivity.
Qed.

(** X5.  While the history is empty (the image has not loaded yet) a
    Circle or Arrow frame has no snapshot to restore and paints over what
    the canvas shows: the shapes of all the frames pile up, and the
    history stays empty until the release. *)
Theorem preview_without_snapshot_piles_up
  (moves : list (PointerEvent * DOMRect)) (s : State) :
  history s = [] ->
  isDrawing s = true ->
  activeTool s = CIRCLE \/ activeTool s = ARROW ->
  let s' := run (previews moves) s in
  bitmap (canvas s')
  = trails (previewBrush (color s) (brush (canvas s))) (activeTool s)
      (startPos s) (positions moves) (bitmap (canvas s)) /\
  history s' = [].
Proof.
  intros Hh Hd Ht s'. split.
  - now apply shape_frames_without_snapshot.
  - destruct (previews_state moves s) as (_ & I2 & _).
    unfold s', previews. now rewrite I2.
Qed.

End MoreProperties.

Section PointerPositions.
Context {Pixel Blob : Type} {RasterOps : Raster R Pixel Blob}.

Lemma getPos_scrolled (dx dy : R) (m : PointerEvent R * DOMRect R) :
  getPos (fst (scrolled dx dy m)) (snd (scrolled dx dy m))
  = getPos (fst m) (snd m).
Proof.
  destruct m as [[cx cy | [fx fy] others] [l t]];
    unfold getPos, scrolled; simpl; f_equal; lra.
Qed.

(** X6.  A position is relative to the canvas: when the page has moved
    on the screen, so that the pointer and the canvas rectangle are both
    shifted by the same amount, a press and a move leave the same state
    as before the shift.  A touch is read at its first contact, whatever
    the other contacts are. *)
Theorem pointer_position_relative_to_canvas (dx dy : R)
  (m : PointerEvent R * DOMRect R) (s : State R Pixel) :
  startDrawing (fst (scrolled dx dy m)) (snd (scrolled dx dy m)) s
  = startDrawing (fst m) (snd m) s /\
  draw (fst (scrolled dx dy m)) (snd (scrolled dx dy m)) s
  = draw (fst m) (snd m) s /\
  forall first others rect,
    getPos (TouchEvent first others) rect
    = getPos (MouseEvent (fst first) (snd first)) rect.
Proof.
  split; [| split].
  - unfold startDrawing. now rewrite getPos_scrolled.
  - unfold draw. now rewrite getPos_scrolled.
  - intros [fx fy] others rect. reflexivity.
Qed.

End PointerPositions.

Lemma history_between_one_and_ten_witness :
  let s := run [GestureStart (MouseEvent 1 1) atOrigin; GestureEnd;
                ClickUndo; ClickUndo] session in
  hasPixels (canvas session) /\
  (1 <= length (history s) <= 10)%nat /\
  length (history (undos 9 s)) = 1%nat.
Proof.
  intros s. split; [exact session_hasPixels |].
  destruct (@history_between_one_and_ten _ _ _ _ _ (photo 400 300)
              1000 1000 []
              [GestureStart (MouseEvent 1 1) atOrigin; GestureEnd;
               ClickUndo; ClickUndo] session_hasPixels) as (H1 & H2 & _).
  split; [exact H1 | exact H2].
Defined.

Lemma undo_after_gestures_restores_canvas_witness :
  let gs := [(mouse 0 0, [mouse 3 4; mouse 6 8]); (mouse 9 9, [])] in
  let s' := undos 2 (run (gestures gs) session) in
  history (mounted : State R nat) = [] /\
  hasPixels (canvas session) /\
  isDrawing session = false /\
  (length gs <= 9)%nat /\
  history s' = history session /\
  forall px py,
    inside (width (canvas session)) (height (canvas session)) px py = true ->
    bitmap (canvas s') px py = bitmap (canvas session) px py.
Proof.
  intros gs s'.
  assert (Hn : (length gs <= 9)%nat) by (simpl; lia).
  split; [reflexivity | split; [exact session_hasPixels |]].
  split; [reflexivity | split; [exact Hn |]].
  destruct (@undo_after_gestures_restores_canvas _ _ _ _ _ (photo 400 300)
              1000 1000 (mounted : State R nat) [] gs eq_refl
              session_hasPixels eq_refl Hn)
    as (_ & _ & Hh & _ & _ & Hpx).
  split; [apply Hh; simpl; lia | exact Hpx].
Defined.

Lemma pen_stroke_accumulates_witness :
  let s' := run (gesture (mouse 0 0) [mouse 3 4; mouse 6 8]) session in
  activeTool session = PEN /\
  path (canvas s')
  = penPath (getPos (fst (mouse 0 0)) (snd (mouse 0 0)))
      (positions [mouse 3 4; mouse 6 8]).
Proof.
  intros s'. split; [reflexivity |].
  apply (proj1 (pen_stroke_accumulates (mouse 0 0) [mouse 3 4; mouse 6 8]
                  session eq_refl)).
Defined.

Lemma pen_colour_fixed_at_press_witness :
  let evs := [GestureMove (MouseEvent 3 4) atOrigin; ClickColor "#FFFF00";
              GestureMove (MouseEvent 6 8) atOrigin] in
  forallb moveOrColor evs = true /\
  activeTool session = PEN /\
  brush (canvas (run (GestureStart (MouseEvent 0 0) atOrigin :: evs) session))
  = gestureBrush "#FF0000".
Proof.
  intros evs. split; [reflexivity | split; [reflexivity |]].
  apply (proj1 (pen_colour_fixed_at_press (MouseEvent 0 0) atOrigin evs
                  session eq_refl) eq_refl).
Defined.

Lemma preview_without_snapshot_piles_up_witness :
  let s := run [ClickTool CIRCLE; GestureStart (MouseEvent 0 0) atOrigin]
             (mounted : State R nat) in
  let s' := run (previews [mouse 3 4; mouse 6 8]) s in
  history s = [] /\
  isDrawing s = true /\
  (activeTool s = CIRCLE \/ activeTool s = ARROW) /\
  history s' = [] /\
  bitmap (canvas s') 5%Z 5%Z = 2%nat.
Proof.
  intros s s'.
  split; [reflexivity | split; [reflexivity | split; [now left |]]].
  destruct (preview_without_snapshot_piles_up [mouse 3 4; mouse 6 8] s
              eq_refl eq_refl (or_introl eq_refl)) as [Hb Hh].
  split; [exact Hh |]. fold s' in Hb. rewrite Hb. reflexivity.
Defined.

(** ** The host of the editor: edits, deletions and uploads of photos *)

Module DetailModalFacts.
Import DetailModal.

Section Facts.
Variables Blob Annotation : Type.

Local Abbreviation Photo := (Photo Blob).
Local Abbreviation InspectionImage := (InspectionImage Blob Annotation).
Local Abbreviation Modal := (Modal Blob).
Local Abbreviation Database := (Database Blob Annotation).
Local Open Scope Z_scope.


Lemma filter_other_In (k x : string) (l : list string) :
  In x (filter (fun i => negb (String.eqb i k)) l) <-> In x l /\ x <> k.
Proof.
  rewrite filter_In. split; intros [H1 H2]; split; trivial.
  - intros ->. now rewrite String.eqb_refl in H2.
  - apply negb_true_iff, String.eqb_neq. exact H2.
Qed.


(** X7.  Saving an edit closes the editor and puts the edited blob on
    the edited photo, in the list and in the database; the other rows and
    the item are untouched.  The list marks the photo as annotated, but
    the row keeps its annotation data: a photo rebuilt from the row has
    the new blob and the mark the row gave it before the edit, which is
    none for a row without annotation data. *)
Theorem edit_reaches_database_but_not_its_mark (blob : Blob) (now : Z)
  (m : Modal) (db : Database) (editing : Photo) (row : InspectionImage) :
  editingPhoto m = Some editing ->
  db_images db (photo_id editing) = Some row ->
  let w' := saveEditedPhoto blob now (m, db) in
  editingPhoto (fst w') = None /\
  data (fst w') = data m /\
  map (@photo_id Blob) (photos (fst w')) = map (@photo_id Blob) (photos m) /\
  (forall p, In p (photos (fst w')) -> photo_id p = photo_id editing ->
             photo_blob p = blob /\ isAnnotated p = true) /\
  (forall p, In p (photos m) -> photo_id p <> photo_id editing ->
             In p (photos (fst w'))) /\
  (exists row',
     db_images (snd w') (photo_id editing) = Some row' /\
     photo_blob (photoOf (data (fst w')) row') = blob /\
     isAnnotated (photoOf (data (fst w')) row')
     = isAnnotated (photoOf (data m) row) /\
     (annotationData row = None ->
      isAnnotated (photoOf (data (fst w')) row') = false) /\
     photo_type (photoOf (data (fst w')) row')
     = photo_type (photoOf (data m) row)) /\
  (forall k, k <> photo_id editing ->
             db_images (snd w') k = db_images db k) /\
  db_items (snd w') = db_items db.
Proof.
  intros He Hrow w'. unfold w', saveEditedPhoto. rewrite He. simpl.
  split; [reflexivity |]. split; [reflexivity |].
  split.
  { rewrite map_map. apply map_ext. intros p.
    now destruct (String.eqb (photo_id p) (photo_id editing)). }
  split.
  { intros p Hp Hid. apply in_map_iff in Hp as [q [Hq _]].
    destruct (String.eqb_spec (photo_id q) (photo_id editing)) as [E | E].
    - subst p. simpl. auto.
    - subst p. contradiction. }
  split.
  { intros p Hp Hid. apply in_map_iff. exists p. split; [| exact Hp].
    destruct (String.eqb_spec (photo_id p) (photo_id editing));
      [contradiction | reflexivity]. }
  split.
  { unfold table_update. rewrite String.eqb_refl, Hrow. simpl.
    eexists. split; [reflexivity |]. simpl.
    split; [reflexivity |]. split; [reflexivity |].
    split; [intros ->; reflexivity | reflexivity]. }
  split; [| reflexivity].
  intros k Hk. unfold table_update.
  now destruct (String.eqb_spec k (photo_id editing)).
Qed.

(** X8.  What the editor's save button does to the modal.  With a
    payload the modal stores exactly that payload on the photo being
    edited and closes the editor; without one the modal, its photos and
    the database stay as they are and the editor stays open.  Cancelling
    closes the editor and changes nothing else. *)
Theorem editor_save_reaches_modal {num Pixel : Type}
  {NumOps : JSNumber num} {RasterOps : Raster num Pixel Blob}
  (s : State num Pixel) (now : Z) (m : Modal) (db : Database)
  (editing : Photo) :
  editingPhoto m = Some editing ->
  let w' := deliver (handleSave s) now (m, db) in
  (toBlob "image/jpeg" (#85 / #100)%js (canvas s) = None ->
   w' = (m, db) /\ editingPhoto (fst w') = Some editing) /\
  (forall blob,
     toBlob "image/jpeg" (#85 / #100)%js (canvas s) = Some blob ->
     w' = saveEditedPhoto blob now (m, db) /\
     editingPhoto (fst w') = None /\
     forall p, In p (photos (fst w')) -> photo_id p = photo_id editing ->
               photo_blob p = blob) /\
  deliver [onCancel] now (m, db)
  = (setEditingPhoto None m, db).
Proof.
  intros He w'. unfold w', handleSave.
  split; [| split].
  - intros ->. simpl. auto.
  - intros blob ->. simpl. split; [reflexivity |].
    unfold saveEditedPhoto. rewrite He. simpl. split; [reflexivity |].
    intros p Hp Hid. apply in_map_iff in Hp as [q [Hq _]].
    destruct (String.eqb_spec (photo_id q) (photo_id editing)) as [E | E].
    + now subst p.
    + subst p. contradiction.
  - reflexivity.
Qed.

(** X9.  Deleting a photo leaves no reference to its id in the photo
    list, in the item's defect and record lists, or in the image table,
    and the item row of the database gets the same two lists as the
    item.  Every other photo, id and row stays, in its place; the source
    images of the item are not looked at. *)
Theorem delete_removes_every_reference (photoId : string) (now1 now2 : Z)
  (m : Modal) (db : Database) :
  let w' := handleDeletePhoto photoId now1 now2 (m, db) in
  (forall p, In p (photos (fst w')) <->
             In p (photos m) /\ photo_id p <> photoId) /\
  (forall i, In i (images (data (fst w'))) <->
             In i (images (data m)) /\ i <> photoId) /\
  (forall i, In i (recordImages (data (fst w'))) <->
             In i (recordImages (data m)) /\ i <> photoId) /\
  sourceImages (data (fst w')) = sourceImages (data m) /\
  db_images (snd w') photoId = None /\
  (forall k, k <> photoId -> db_images (snd w') k = db_images db k) /\
  (forall stored, db_items db (id (data m)) = Some stored ->
     exists stored',
       db_items (snd w') (id (data m)) = Some stored' /\
       images stored' = images (data (fst w')) /\
       recordImages stored' = recordImages (data (fst w')) /\
       updatedAt stored' = now2).
Proof.
  intros w'. unfold w', handleDeletePhoto. simpl.
  destruct (data m) as [a b t st d im ri si sty stx so up] eqn:Ed. simpl.
  split.
  { intros p. rewrite filter_In. split; intros [H1 H2]; split; trivial.
    - intros E. rewrite E, String.eqb_refl in H2. discriminate.
    - apply negb_true_iff, String.eqb_neq. exact H2. }
  split; [intros i; apply filter_other_In |].
  split; [intros i; apply filter_other_In |].
  split; [reflexivity |].
  split; [unfold table_delete; now rewrite String.eqb_refl |].
  split.
  { intros k Hk. unfold table_delete.
    now destruct (String.eqb_spec k photoId). }
  intros stored Hs. unfold table_update. rewrite String.eqb_refl, Hs.
  simpl. eexists. split; [reflexivity |].
  destruct stored. simpl. auto.
Qed.



End Facts.

End DetailModalFacts.

Lemma edit_reaches_database_but_not_its_mark_witness :
  let w' := DetailModal.saveEditedPhoto (400, 300)%Z 9
              (exampleModal, exampleDatabase) in
  DetailModal.editingPhoto exampleModal
  = Some (DetailModal.photoOf exampleItem exampleRow) /\
  DetailModal.db_images exampleDatabase "p1"%string = Some exampleRow /\
  DetailModal.editingPhoto (fst w') = None /\
  exists row',
    DetailModal.db_images (snd w') "p1"%string = Some row' /\
    DetailModal.photo_blob (DetailModal.photoOf (DetailModal.data (fst w')) row')
    = (400, 300)%Z /\
    DetailModal.isAnnotated
      (DetailModal.photoOf (DetailModal.data (fst w')) row') = false.
Proof.
  intros w'. split; [reflexivity | split; [reflexivity |]].
  destruct (DetailModalFacts.edit_reaches_database_but_not_its_mark
              (400, 300)%Z 9 exampleModal exampleDatabase
              (editing := DetailModal.photoOf exampleItem exampleRow)
              (row := exampleRow) eq_refl eq_refl)
    as (H1 & _ & _ & _ & _ & (row' & R1 & R2 & _ & R4 & _) & _).
  split; [exact H1 |]. exists row'.
  split; [exact R1 | split; [exact R2 | exact (R4 eq_refl)]].
Defined.

Lemma editor_save_reaches_modal_witness :
  DetailModal.editingPhoto exampleModal
  = Some (DetailModal.photoOf exampleItem exampleRow) /\
  toBlob "image/jpeg" (85 / 100) (canvas largeSession) = None /\
  DetailModal.deliver (handleSave largeSession) 9
    (exampleModal, exampleDatabase)
  = (exampleModal, exampleDatabase).
Proof.
  split; [reflexivity |].
  split; [exact largeSession_not_encoded |].
  apply (proj1 (DetailModalFacts.editor_save_reaches_modal
                  (Annotation := unit) (NumOps := RealNumber)
                  (RasterOps := LayerCount R)
                  largeSession 9 exampleModal exampleDatabase eq_refl)).
  exact largeSession_not_encoded.
Defined.

Lemma delete_removes_every_reference_witness :
  let w' := DetailModal.handleDeletePhoto "p1"%string 7 8
              (exampleModal, exampleDatabase) in
  DetailModal.db_items exampleDatabase
    (DetailModal.id (DetailModal.data exampleModal)) = Some exampleItem /\
  exists stored',
    DetailModal.db_items (snd w') "item-1"%string = Some stored' /\
    DetailModal.images stored' = DetailModal.images (DetailModal.data (fst w')).
Proof.
  intros w'. split; [reflexivity |].
  destruct (DetailModalFacts.delete_removes_every_reference "p1"%string 7 8
              exampleModal exampleDatabase)
    as (_ & _ & _ & _ & _ & _ & H).
  destruct (H exampleItem eq_refl) as (stored' & S1 & S2 & _).
  exists stored'. split; [exact S1 | exact S2].
Defined.



Section Frame.
Context {num Pixel Blob : Type} {NumOps : JSNumber num}
        {RasterOps : Raster num Pixel Blob}.

Lemma handle_dims (s : State num Pixel) (ev : Event num) :
  width (canvas (handle s ev)) = width (canvas s) /\
  height (canvas (handle s ev)) = height (canvas s).
Proof.
  destruct ev as [e rect | e rect | | | t | c |]; simpl; try now split.
  - apply draw_dims.
  - unfold stopDrawing. destruct (isDrawing s); now split.
  - apply handleUndo_dims.
Qed.

(** X12.  What each event leaves alone.  The size of the canvas never
    changes after the load.  Pointer moves and releases (a pointer leaving
    the canvas is a release) are ignored while no gesture is active.  The
    history changes only at a release and at an undo; the pixels change
    only at a move and at an undo. *)
Theorem events_leave_alone (s : State num Pixel) (evs : list (Event num)) :
  (width (canvas (run evs s)) = width (canvas s) /\
   height (canvas (run evs s)) = height (canvas s)) /\
  (isDrawing s = false ->
   handle s GestureEnd = s /\
   forall e rect, handle s (GestureMove e rect) = s) /\
  (forall ev,
     match ev with
     | GestureEnd | ClickUndo => True
     | _ => history (handle s ev) = history s
     end) /\
  (forall ev,
     match ev with
     | GestureMove _ _ | ClickUndo => True
     | _ => bitmap (canvas (handle s ev)) = bitmap (canvas s)
     end).
Proof.
  split; [| split; [| split]].
  - revert s. induction evs as [|ev evs IH]; intros s; [now split |].
    simpl. destruct (IH (handle s ev)) as [I1 I2].
    destruct (handle_dims s ev) as [D1 D2]. split; congruence.
  - intros Hidle. split.
    + simpl. unfold stopDrawing. now rewrite Hidle.
    + intros e rect. simpl. unfold draw. now rewrite Hidle.
  - intros [e rect | e rect | | | t | c |]; simpl; trivial.
    apply draw_state.
  - intros [e rect | e rect | | | t | c |]; simpl; trivial.
    unfold stopDrawing. now destruct (isDrawing s).
Qed.

End Frame.

Lemma events_leave_alone_witness :
  isDrawing session = false /\
  handle session GestureEnd = session /\
  handle session (GestureMove (MouseEvent 3 4) atOrigin) = session.
Proof.
  split; [reflexivity |].
  destruct (proj1 (proj2 (events_leave_alone session [])) eq_refl)
    as [H1 H2].
  split; [exact H1 | apply H2].
Defined.
